(** * Tech-tip videos: [generate_videos.py], [generate_videos_local.py]

    A shallow embedding of the two batch scripts and the properties their
    specification states about them.  Python values are modelled as the
    code has them:

    - a [str] that comes from the completion service is a list of Unicode
      code points ([pystr]); file names, which the scripts build from ASCII
      literals and decimal integers, are [string]s;
    - a number is an [int] or a binary64 [float] ([pynum]), floats being the
      Standard Library's executable [spec_float];
    - an exception is a value of [exn]; code that can raise returns an
      [outcome]; code that also touches the disk runs in the monad [M] over
      a [world] that survives the exception. *)

From Stdlib Require Import ZArith NArith List Bool Ascii String Lia.
From Stdlib Require Import Floats.SpecFloat.
From stdpp Require Import gmap strings list fin_maps sorting pretty.

Local Open Scope Z_scope.

(** ** Exceptions *)

Inductive exn : Type :=
| IndexError
| ValueError
| OverflowError
| TypeError
| ZeroDivisionError
| OSError
| ServiceError     (* the completion or the text-to-speech request failed *)
| RenderError      (* caption rendering or video encoding failed *)
| SystemExit.

Inductive outcome (A : Type) : Type :=
| Ok (a : A)
| Raise (e : exn).
Arguments Ok {A} a.
Arguments Raise {A} e.

#[global] Instance outcome_ret : MRet outcome := fun A a => Ok a.
#[global] Instance outcome_bind : MBind outcome := fun A B f m =>
  match m with
  | Ok a => f a
  | Raise e => Raise e
  end.

Definition is_ok {A} (o : outcome A) : bool :=
  match o with Ok _ => true | Raise _ => false end.

(** ** Python strings *)

(** A [str] is a sequence of Unicode code points. *)
Definition pystr : Type := list N.

Definition py (s : string) : pystr :=
  map N_of_ascii (list_ascii_of_string s).

(** The digit property of the Unicode database beyond ASCII is a table of
    the interpreter, not of the scripts: it is taken as a parameter. *)
Class UnicodeDb : Type := { unicode_digit : N -> bool }.

Section PyStr.
Context `{UnicodeDb}.
Local Open Scope N_scope.

(** [str.isspace] for one character (CPython's [_PyUnicode_IsWhitespace]). *)
Definition isspace (c : N) : bool :=
  ((9 <=? c) && (c <=? 13)) || ((28 <=? c) && (c <=? 32))
  || (c =? 133) || (c =? 160) || (c =? 5760)
  || ((8192 <=? c) && (c <=? 8202))
  || (c =? 8232) || (c =? 8233) || (c =? 8239) || (c =? 8287)
  || (c =? 12288).

(** Line boundaries of [str.splitlines]. *)
Definition is_linebreak (c : N) : bool :=
  ((10 <=? c) && (c <=? 13)) || ((28 <=? c) && (c <=? 30))
  || (c =? 133) || (c =? 8232) || (c =? 8233).

(** [c.isdigit()] for one character. *)
Definition isdigit (c : N) : bool :=
  if c <? 128 then (48 <=? c) && (c <=? 57) else unicode_digit c.

Fixpoint lstrip (s : pystr) : pystr :=
  match s with
  | [] => []
  | c :: s' => if isspace c then lstrip s' else s
  end.

Definition rstrip (s : pystr) : pystr := rev (lstrip (rev s)).

(** [s.strip()] *)
Definition strip (s : pystr) : pystr := rstrip (lstrip s).

(** [text.splitlines()]: [cur] is the current line, reversed.  A carriage
    return followed by a line feed is one boundary; no empty last line. *)
Fixpoint splitlines_from (cur : pystr) (s : pystr) : list pystr :=
  match s with
  | [] => match cur with [] => [] | _ => [rev cur] end
  | c :: s' =>
      if is_linebreak c then
        if c =? 13 then
          match s' with
          | 10 :: s'' => rev cur :: splitlines_from [] s''
          | _ => rev cur :: splitlines_from [] s'
          end
        else rev cur :: splitlines_from [] s'
      else splitlines_from (c :: cur) s'
  end.

Definition splitlines (s : pystr) : list pystr := splitlines_from [] s.

(** [s[i]] for a non-negative index. *)
Definition index {A} (s : list A) (i : nat) : outcome A :=
  match s !! i with
  | Some c => Ok c
  | None => Raise IndexError
  end.

(** [c in s] *)
Definition contains (c : N) (s : pystr) : bool := existsb (N.eqb c) s.

(** [s.split(sep, 1)] for a one-character separator. *)
Fixpoint split_once_from (sep : N) (cur : pystr) (s : pystr) : list pystr :=
  match s with
  | [] => [rev cur]
  | c :: s' =>
      if c =? sep then [rev cur; s'] else split_once_from sep (c :: cur) s'
  end.

Definition split_once (sep : N) (s : pystr) : list pystr :=
  split_once_from sep [] s.

(** [lst[:n]] with Python's meaning of a negative bound. *)
Definition slice_to {A} (l : list A) (n : Z) : list A :=
  if (n <? 0)%Z then take (Z.to_nat (Z.of_nat (length l) + n)) l
  else take (Z.to_nat n) l.

(** [len(l) < n] *)
Definition len_lt {A} (l : list A) (n : Z) : bool :=
  (Z.of_nat (length l) <? n)%Z.

(** [re.split(r'(?<=[.!?]) +', text)].  A match starts at a space that
    directly follows one of [. ! ?] and takes the whole run of spaces;
    [RsSkip] is the state inside such a run, [RsText prev] the state
    outside with [prev] the character just read (if any).  [cur] is the
    current piece, reversed. *)
Inductive re_state : Type :=
| RsText (prev : option N)
| RsSkip.

Definition is_terminator (c : N) : bool :=
  (c =? 46) || (c =? 33) || (c =? 63).

Definition after_terminator (st : re_state) : bool :=
  match st with
  | RsText (Some p) => is_terminator p
  | _ => false
  end.

Fixpoint re_split_from (st : re_state) (cur : pystr) (s : pystr)
  : list pystr :=
  match s with
  | [] => [rev cur]
  | c :: s' =>
      match st with
      | RsSkip =>
          if c =? 32 then re_split_from RsSkip cur s'
          else re_split_from (RsText (Some c)) (c :: cur) s'
      | RsText _ =>
          if (c =? 32) && after_terminator st
          then rev cur :: re_split_from RsSkip [] s'
          else re_split_from (RsText (Some c)) (c :: cur) s'
      end
  end.

Definition re_split_sentences (text : pystr) : list pystr :=
  re_split_from (RsText None) [] text.

(** [[s.strip() for s in sentences if len(s.strip()) > 10]] *)
Definition long_sentence (s : pystr) : bool :=
  (10 <? length (strip s))%nat.

Definition keep_sentences (sentences : list pystr) : list pystr :=
  map strip (List.filter long_sentence sentences).

(** The fallback of both scripts (lines 50-52, resp. 66-68). *)
Definition fallback_sentences (text : pystr) (num_tips : Z) : list pystr :=
  slice_to (keep_sentences (re_split_sentences text)) num_tips.
End PyStr.

(** ** Python numbers

    An [int] is exact; a [float] is IEEE 754 binary64. *)

Definition prec : Z := 53.
Definition emax : Z := 1024.

Inductive pynum : Type :=
| PInt (z : Z)
| PFloat (f : spec_float).

(** The float literal [0.5]. *)
Definition float_half : spec_float := S754_finite false 4503599627370496 (-53).

(** The value of a number: not a number, an infinity, or [m * 2^e]. *)
Inductive xval : Type :=
| XNan
| XNegInf
| XPosInf
| XFin (m e : Z).

Definition xval_of (x : pynum) : xval :=
  match x with
  | PInt z => XFin z 0
  | PFloat (S754_zero _) => XFin 0 0
  | PFloat (S754_infinity s) => if s then XNegInf else XPosInf
  | PFloat S754_nan => XNan
  | PFloat (S754_finite s m e) => XFin (cond_Zopp s (Zpos m)) e
  end.

Definition fin_compare (m1 e1 m2 e2 : Z) : comparison :=
  let e := Z.min e1 e2 in
  (m1 * 2 ^ (e1 - e) ?= m2 * 2 ^ (e2 - e)).

(** [x < y]: Python compares an [int] with a [float] by value, and any
    comparison with a NaN is false. *)
Definition py_lt (x y : pynum) : bool :=
  match xval_of x, xval_of y with
  | XNan, _ | _, XNan => false
  | _, XNegInf => false
  | XNegInf, _ => true
  | XPosInf, _ => false
  | _, XPosInf => true
  | XFin m1 e1, XFin m2 e2 =>
      match fin_compare m1 e1 m2 e2 with Lt => true | _ => false end
  end.

(** [x <= y] *)
Definition py_le (x y : pynum) : bool :=
  match xval_of x, xval_of y with
  | XNan, _ | _, XNan => false
  | XNegInf, _ => true
  | _, XNegInf => false
  | _, XPosInf => true
  | XPosInf, _ => false
  | XFin m1 e1, XFin m2 e2 =>
      match fin_compare m1 e1 m2 e2 with Gt => false | _ => true end
  end.

(** [min(a, b)] and [max(a, b)] of two positional arguments: the first one
    is kept unless the second is strictly smaller (resp. larger). *)
Definition py_min (a b : pynum) : pynum := if py_lt b a then b else a.
Definition py_max (a b : pynum) : pynum := if py_lt a b then b else a.

(** Truth value of a number. *)
Definition num_truthy (x : pynum) : bool :=
  match x with
  | PInt z => negb (z =? 0)
  | PFloat (S754_zero _) => false
  | PFloat _ => true
  end.

(** [float(z)]: round to nearest even; an [int] too large raises. *)
Definition float_of_int (z : Z) : outcome spec_float :=
  match binary_normalize prec emax z 0 false with
  | S754_infinity _ => Raise OverflowError
  | f => Ok f
  end.

(** [x - y] *)
Definition py_sub (x y : pynum) : outcome pynum :=
  match x, y with
  | PInt a, PInt b => Ok (PInt (a - b))
  | PFloat f, PFloat g => Ok (PFloat (SFsub prec emax f g))
  | PInt a, PFloat g => f ← float_of_int a; Ok (PFloat (SFsub prec emax f g))
  | PFloat f, PInt b => g ← float_of_int b; Ok (PFloat (SFsub prec emax f g))
  end.

(** [x + y] *)
Definition py_add (x y : pynum) : outcome pynum :=
  match x, y with
  | PInt a, PInt b => Ok (PInt (a + b))
  | PFloat f, PFloat g => Ok (PFloat (SFadd prec emax f g))
  | PInt a, PFloat g => f ← float_of_int a; Ok (PFloat (SFadd prec emax f g))
  | PFloat f, PInt b => g ← float_of_int b; Ok (PFloat (SFadd prec emax f g))
  end.

(** Line 67 (resp. 108) of [build_video]:
    [duration if duration else max(8, min(25, aud_duration + 0.5))];
    [aud_duration] is the float the audio reader reports. *)
Definition computed_duration (aud_duration : spec_float) : pynum :=
  py_max (PInt 8)
    (py_min (PInt 25) (PFloat (SFadd prec emax aud_duration float_half))).

Definition clip_duration_of (duration : option pynum)
    (aud_duration : spec_float) : pynum :=
  match duration with
  | Some d => if num_truthy d then d else computed_duration aud_duration
  | None => computed_duration aud_duration
  end.

(** ** Paths

    A path is its string in normal form.  [with_suffix] follows pathlib:
    the name is what follows the last ['/'], its suffix starts at the last
    ['.'] of the name unless that dot is the first or the last character. *)

Definition chars (s : string) : list ascii := list_ascii_of_string s.
Definition of_chars (l : list ascii) : string := string_of_list_ascii l.

(** The part of [l] before the first [c], and what follows that [c]. *)
Fixpoint until_char (c : ascii) (l : list ascii)
  : list ascii * option (list ascii) :=
  match l with
  | [] => ([], None)
  | a :: l' =>
      if Ascii.eqb a c then ([], Some l')
      else let '(pre, post) := until_char c l' in (a :: pre, post)
  end.

Definition with_suffix (p suffix : string) : outcome string :=
  let '(rname, rparent) := until_char "/" (rev (chars p)) in
  let parent :=
    match rparent with
    | Some rp => of_chars (rev rp) +:+ "/"
    | None => EmptyString
    end in
  match rname with
  | [] => Raise ValueError
  | _ =>
      if String.eqb p "." then Raise ValueError
      else
        let rstem :=
          match until_char "." rname with
          | (rsuf, Some rstem) =>
              if (0 <? length rsuf)%nat && (0 <? length rstem)%nat
              then rstem else rname
          | (_, None) => rname
          end in
        Ok (parent +:+ of_chars (rev rstem) +:+ suffix)
  end.

(** [dir / name] for a relative [name]. *)
Definition path_join (dir name : string) : string := dir +:+ "/" +:+ name.

Fixpoint starts_with (pre l : list ascii) : bool :=
  match pre, l with
  | [], _ => true
  | a :: pre', b :: l' => Ascii.eqb a b && starts_with pre' l'
  | _ :: _, [] => false
  end.

(** [p] is an entry of [dir] whose name matches ["*" + ext]. *)
Definition glob_match (dir ext p : string) : bool :=
  match until_char "/" (rev (chars p)) with
  | (rname, Some rp) =>
      String.eqb (of_chars (rev rp)) dir && starts_with (rev (chars ext)) rname
  | (_, None) => false
  end.

Definition last_char (s : string) : option ascii := last (chars s).

Definition OUT_DIR : string := "outputs".
Definition ASSETS_DIR : string := "assets".
Definition manifest_path : string := path_join OUT_DIR "videos_log.json".

(** ** The world the scripts run in *)

Definition entry : Type := pystr * string.   (* {"tip": ..., "file": ...} *)

Inductive file : Type :=
| FAudio (dur : spec_float)          (* a narration of that length *)
| FVideo (w h : Z) (dur : pynum)     (* a decodable video *)
| FImage (w h : Z)
| FManifest (entries : list entry)   (* a JSON array of entries *)
| FOther.                            (* anything else; unreadable as media *)

Inductive event : Type :=
| EvWrite (p : string) (f : file)
| EvUnlink (p : string)
| EvPrint (msg : pystr)
| EvSleep (secs : Z).

Record world : Type := World {
  disk : gmap string file;     (* regular files, by path *)
  trace : list event;          (* what the run did, oldest first *)
  clock_reads : nat;           (* calls of [time.time()] so far *)
  uuid_draws : nat             (* calls of [uuid.uuid4()] so far *)
}.

(** What the run cannot decide: the environment and the services. *)
Record env : Type := Env {
  api_key : option string;            (* OPENAI_API_KEY after load_dotenv *)
  completion : Z -> outcome pystr;    (* reply to the prompt for n tips *)
  tts : pystr -> outcome spec_float;  (* gTTS: length of the narration *)
  render_ok : pystr -> bool;          (* can this text be rendered *)
  encode_ok : string -> bool;         (* does the encoder finish this file *)
  unlink_ok : string -> bool;         (* may this file be deleted *)
  close_ok : bool;                    (* does closing the reader succeed *)
  time_at : nat -> Z;                 (* int(time.time()) at the n-th call *)
  uuid_at : nat -> string;            (* uuid4().hex at the n-th call *)
  text_size : pystr -> Z * Z;         (* frame size of a rendered text *)
  stdout_encodes : N -> bool          (* non-ASCII characters stdout can show *)
}.

Definition M (A : Type) : Type := world -> outcome A * world.

#[global] Instance M_ret : MRet M := fun A a w => (Ok a, w).
#[global] Instance M_bind : MBind M := fun A B f m w =>
  match m w with
  | (Ok a, w') => f a w'
  | (Raise e, w') => (Raise e, w')
  end.

Definition raise {A} (e : exn) : M A := fun w => (Raise e, w).
Definition lift {A} (o : outcome A) : M A := fun w => (o, w).

(** [try: body  except: handler] (a bare [except]). *)
Definition try_except {A} (body : M A) (handler : M A) : M A := fun w =>
  match body w with
  | (Ok a, w') => (Ok a, w')
  | (Raise _, w') => handler w'
  end.

(** [try: body  except Exception: handler]; [SystemExit] passes through. *)
Definition try_except_Exception {A} (body : M A) (handler : M A) : M A :=
  fun w =>
  match body w with
  | (Ok a, w') => (Ok a, w')
  | (Raise SystemExit, w') => (Raise SystemExit, w')
  | (Raise _, w') => handler w'
  end.

Definition log (e : event) : M unit := fun w =>
  (Ok tt, World (disk w) (trace w ++ [e]) (clock_reads w) (uuid_draws w)).

Definition write_file (p : string) (f : file) : M unit := fun w =>
  (Ok tt, World (<[p:=f]> (disk w)) (trace w ++ [EvWrite p f])
             (clock_reads w) (uuid_draws w)).

Definition read_file (p : string) : M file := fun w =>
  match disk w !! p with
  | Some f => (Ok f, w)
  | None => (Raise OSError, w)
  end.

(** [Path(p).exists()], for a name that the file system can look up (one
    it cannot, such as a name that is too long, makes the call raise). *)
Definition path_exists (p : string) : M bool := fun w =>
  (Ok (bool_decide (is_Some (disk w !! p))), w).

Section Services.
Context (E : env).

(** [p.unlink()] *)
Definition unlink (p : string) : M unit := fun w =>
  match disk w !! p with
  | Some _ =>
      if unlink_ok E p
      then (Ok tt, World (delete p (disk w)) (trace w ++ [EvUnlink p])
                     (clock_reads w) (uuid_draws w))
      else (Raise OSError, w)
  | None => (Raise OSError, w)
  end.

(** [int(time.time())] *)
Definition time_now : M Z := fun w =>
  (Ok (time_at E (clock_reads w)),
   World (disk w) (trace w) (S (clock_reads w)) (uuid_draws w)).

(** A character that the encoding of stdout has: every ASCII character,
    and the others as the environment says. *)
Definition encodable (c : N) : bool := (c <? 128)%N || stdout_encodes E c.

(** [print(msg)].  A character that stdout cannot encode makes the call
    raise [UnicodeEncodeError], a [ValueError]; the trace keeps whole
    lines only, so nothing is recorded then. *)
Definition print (msg : pystr) : M unit :=
  if forallb encodable msg then log (EvPrint msg) else raise ValueError.

(** [time.sleep(secs)] *)
Definition sleep (secs : Z) : M unit := log (EvSleep secs).

(** [uuid.uuid4().hex] *)
Definition uuid4_hex : M string := fun w =>
  (Ok (uuid_at E (uuid_draws w)),
   World (disk w) (trace w) (clock_reads w) (S (uuid_draws w))).

(** [p.mkdir(exist_ok=True)]: the disk holds regular files only, so the
    call fails exactly when a regular file has that name.  The directory
    it makes is not recorded: the world has no directories. *)
Definition mkdir_exist_ok (p : string) : M unit := fun w =>
  match disk w !! p with
  | Some _ => (Raise OSError, w)
  | None => (Ok tt, w)
  end.

(** [sorted(dir.glob("*" + ext))] *)
Definition glob_sorted (dir ext : string) : M (list string) := fun w =>
  (Ok (merge_sort String.le
         (List.filter (glob_match dir ext) (elements (dom (disk w))))), w).

(** Lines 56-58 (resp. 72-74): [gTTS(...).save(out_path)]. *)
Definition create_voice (text : pystr) (out_path : string) : M unit :=
  dur ← lift (tts E text);
  write_file out_path (FAudio dur).
End Services.

(** ** Clips

    The part of moviepy the scripts use, as its documentation and source
    describe it: a clip has layers (bottom to top), a frame size, a duration
    ([None] until one is set), a frame rate and an audio track.  Positions
    and margins of layers enter no property and are left out. *)

Inductive source : Type :=
| SrcStock (p : string)
| SrcColor (rgb : Z * Z * Z)
| SrcText (t : pystr)
| SrcImage (p : string).

Record audio_clip : Type := AudioClip {
  a_path : string;
  a_duration : spec_float
}.

Record clip : Type := Clip {
  c_layers : list source;
  c_w : Z;
  c_h : Z;
  c_duration : option pynum;
  c_fps : option Z;
  c_audio : option audio_clip
}.

Definition W : Z := 1080.
Definition H : Z := 1920.

(** [clip.set_duration(d)] *)
Definition set_duration (d : pynum) (c : clip) : clip :=
  Clip (c_layers c) (c_w c) (c_h c) (Some d) (c_fps c) (c_audio c).

(** [clip.set_fps(fps)] *)
Definition set_fps (fps : Z) (c : clip) : clip :=
  Clip (c_layers c) (c_w c) (c_h c) (c_duration c) (Some fps) (c_audio c).

(** [clip.set_audio(a)] *)
Definition set_audio (a : audio_clip) (c : clip) : clip :=
  Clip (c_layers c) (c_w c) (c_h c) (c_duration c) (c_fps c) (Some a).

(** [clip.duration] where a number is needed. *)
Definition duration_of (c : clip) : outcome pynum :=
  match c_duration c with
  | Some d => Ok d
  | None => Raise TypeError
  end.

(** [clip.resize(height=h)]: the new width is [int(w * h / clip.h)]. *)
Definition resize_height (h : Z) (c : clip) : outcome clip :=
  if c_h c =? 0 then Raise ZeroDivisionError
  else Ok (Clip (c_layers c) (Z.quot (c_w c * h) (c_h c)) h
             (c_duration c) (c_fps c) (c_audio c)).

(** Number of items of [range(n)[a:b]]. *)
Definition slice_len (n a b : Z) : Z :=
  let norm i := if i <? 0 then Z.max (i + n) 0 else Z.min i n in
  Z.max 0 (norm b - norm a).

(** [clip.crop(x_center=xc, width=width)], and with [y_center=yc,
    height=height] when [ycenter] is given.  Centres are passed doubled
    ([xc2 = 2 * xc]) so that halves stay integers; a centre of zero counts
    as not given and a right or lower edge of zero as the full size, as in
    moviepy; the frame is sliced at [int(x1):int(x2)]. *)
Definition crop_centered (xc2 width : Z) (ycenter : option (Z * Z)) (c : clip)
  : clip :=
  let span c2 size full :=
    if c2 =? 0 then (0, full)
    else (Z.quot (c2 - size) 2,
          if c2 + size =? 0 then full else Z.quot (c2 + size) 2) in
  let '(x1, x2) := span xc2 width (c_w c) in
  let '(y1, y2) :=
    match ycenter with
    | Some (yc2, height) => span yc2 height (c_h c)
    | None => (0, c_h c)
    end in
  Clip (c_layers c) (slice_len (c_w c) x1 x2) (slice_len (c_h c) y1 y2)
    (c_duration c) (c_fps c) (c_audio c).

(** [clip.subclip(t_start, t_end)] with [t_end] given. *)
Definition subclip (t_start t_end : pynum) (c : clip) : outcome clip :=
  t_start ← (if py_lt t_start (PInt 0)
             then d ← duration_of c; py_add d t_start
             else Ok t_start);
  match c_duration c with
  | Some d => if py_lt d t_start then Raise ValueError else Ok tt
  | None => Ok tt
  end;;
  t_end ← (if py_lt t_end (PInt 0)
           then match c_duration c with
                | Some d => py_add d t_end
                | None => Ok t_end
                end
           else Ok t_end);
  d ← py_sub t_end t_start;
  Ok (set_duration d c).

(** [ColorClip(size=(w, h), color=rgb, duration=d)] *)
Definition ColorClip (w h : Z) (rgb : Z * Z * Z) (d : pynum) : clip :=
  Clip [SrcColor rgb] w h (Some d) None None.

(** Duration of a composite: [max] of the ends of its layers (which all
    start at zero), if every layer has one. *)
Definition latest_end (cs : list clip) : option pynum :=
  match cs with
  | [] => None
  | c :: cs' =>
      foldl (fun acc c' =>
               match acc, c_duration c' with
               | Some m, Some d => Some (py_max m d)
               | _, _ => None
               end)
        (c_duration c) cs'
  end.

(** [CompositeVideoClip(cs, size=(w, h))] *)
Definition CompositeVideoClip (cs : list clip) (w h : Z) : clip :=
  Clip (flat_map c_layers cs) w h (latest_end cs) None None.

Section Media.
Context (E : env).

(** [AudioFileClip(p)] *)
Definition AudioFileClip (p : string) : M audio_clip :=
  f ← read_file p;
  match f with
  | FAudio d => mret (AudioClip p d)
  | _ => raise OSError
  end.

(** [VideoFileClip(p)]; the frame rate of the file is not read. *)
Definition VideoFileClip (p : string) : M clip :=
  f ← read_file p;
  match f with
  | FVideo w h d => mret (Clip [SrcStock p] w h (Some d) None None)
  | _ => raise OSError
  end.

(** [ImageClip(p)] *)
Definition ImageClip (p : string) : M clip :=
  f ← read_file p;
  match f with
  | FImage w h => mret (Clip [SrcImage p] w h None None None)
  | _ => raise OSError
  end.

(** [TextClip(text, ...)] *)
Definition TextClip (text : pystr) : M clip :=
  if render_ok E text
  then mret (Clip [SrcText text] (text_size E text).1 (text_size E text).2
               None None None)
  else raise RenderError.

(** [clip.write_videofile(p, ...)]: the file at [p].  The sound file that
    moviepy keeps beside it while encoding, and leaves when the encoder
    fails, is not recorded. *)
Definition write_videofile (c : clip) (p : string) : M unit :=
  d ← lift (duration_of c);
  if encode_ok E p then write_file p (FVideo (c_w c) (c_h c) d)
  else raise RenderError.

(** [audio.close()] *)
Definition audio_close (a : audio_clip) : M unit :=
  if close_ok E then mret tt else raise OSError.
End Media.

(** The fixed call to action, with its arrow U+279C. *)
Definition cta_text : pystr :=
  py "Follow for daily tech tips " ++ [10140%N] ++ py " @yourhandle".

(** Truth value of [os.getenv(...)] and of [use_stock_clip]. *)
Definition str_truthy (s : option string) : bool :=
  match s with
  | Some s => negb (String.eqb s EmptyString)
  | None => false
  end.

(** [f"tech_tip_{ts}_{i+1}.mp4"] *)
Definition video_name (ts : Z) (i : nat) : string :=
  "tech_tip_" +:+ pretty ts +:+ "_" +:+ pretty (Z.of_nat i + 1) +:+ ".mp4".

(** Exit status of the interpreter. *)
Definition exit_status (o : outcome unit) : Z :=
  match o with
  | Ok _ => 0
  | Raise _ => 1
  end.

(** ** [generate_videos.py] *)
Module GenerateVideos.
Section Script.
Context `{UnicodeDb} (E : env).

(** Lines 45-46: the test reads [line[1]] as soon as [line[0]] is a
    digit; the numbering is cut at the first ['.'] of the line. *)
Definition strip_numbering (line : pystr) : outcome pystr :=
  c0 ← index line 0;
  numbered ← (if isdigit c0
              then c1 ← index line 1; mret ((c1 =? 46) || (c1 =? 41))%N
              else mret false);
  if (numbered : bool) then
    if contains 46%N line
    then rest ← index (split_once 46%N line) 1; mret (strip rest)
    else mret line
  else mret line.

(** The loop of lines 40-47; [lines] is the list built so far. *)
Fixpoint parse_lines (todo : list pystr) (lines : list pystr)
  : outcome (list pystr) :=
  match todo with
  | [] => mret lines
  | line :: todo' =>
      match strip line with
      | [] => parse_lines todo' lines
      | line =>
          line ← strip_numbering line;
          parse_lines todo' (lines ++ [line])
      end
  end.

(** Lines 38-53, from the text of the reply on. *)
Definition tips_of_text (text : pystr) (num_tips : Z)
  : outcome (list pystr) :=
  lines ← parse_lines (splitlines text) [];
  let lines :=
    if len_lt lines num_tips then fallback_sentences text num_tips
    else lines in
  mret (slice_to lines num_tips).

(** Lines 29-53. *)
Definition generate_tech_tips (num_tips : Z) : outcome (list pystr) :=
  text ← completion E num_tips;
  tips_of_text text num_tips.

(** Lines 71-79: the background track. *)
Definition background (clip_duration : pynum) (bg_color : Z * Z * Z)
    (use_stock_clip : option string) : M clip :=
  use ← (if str_truthy use_stock_clip
         then path_exists (default EmptyString use_stock_clip)
         else mret false);
  if (use : bool) then
    bg ← VideoFileClip (default EmptyString use_stock_clip);
    bg ← lift (resize_height H bg);
    let bg := crop_centered 1 W None bg in
    native ← lift (duration_of bg);
    bg ← lift (subclip (PInt 0) (py_min clip_duration native) bg);
    mret (set_duration clip_duration bg)
  else
    let bg := ColorClip W H bg_color clip_duration in
    mret (set_fps 24 bg).

(** Lines 61-103.  [textwrap.fill] changes what is drawn, nothing else:
    the rendering is asked of the tip's text. *)
Definition build_video (tip_text : pystr) (output_path : string)
    (duration : option pynum) (bg_color : Z * Z * Z)
    (use_stock_clip : option string) : M unit :=
  audio_file ← lift (with_suffix output_path ".mp3");
  create_voice E tip_text audio_file;;
  audio ← AudioFileClip audio_file;
  let aud_duration := a_duration audio in
  let clip_duration := clip_duration_of duration aud_duration in
  bg ← background clip_duration bg_color use_stock_clip;
  txt_clip ← TextClip E tip_text;
  let txt_clip := set_duration clip_duration txt_clip in
  cta ← TextClip E cta_text;
  let cta := set_duration clip_duration cta in
  let final :=
    set_duration clip_duration (CompositeVideoClip [bg; txt_clip; cta] W H) in
  let final := set_audio audio final in
  write_videofile E final output_path;;
  try_except (audio_close E audio) (mret tt).

(** The loop of lines 110-117, from index [i] on. *)
Fixpoint main_loop (i : nat) (tips : list pystr)
    (stock_candidates : list string) (results : list entry)
  : M (list entry) :=
  match tips with
  | [] => mret results
  | tip :: tips' =>
      ts ← time_now E;
      let name := video_name ts i in
      let out_path := path_join OUT_DIR name in
      stock ← lift (match stock_candidates with
                    | [] => Ok None
                    | _ => p ← index stock_candidates
                               (i `mod` length stock_candidates)%nat;
                           Ok (Some p)
                    end);
      print E (py "Generating: " ++ tip);;
      build_video tip out_path None (18, 18, 18) stock;;
      let results := results ++ [(tip, out_path)] in
      sleep 1;;
      main_loop (S i) tips' stock_candidates results
  end.

(** Lines 106-123. *)
Definition main : M unit :=
  tips ← lift (generate_tech_tips 5);
  stock_candidates ← glob_sorted ASSETS_DIR ".mp4";
  results ← main_loop 0 tips stock_candidates [];
  write_file manifest_path (FManifest results);;
  print E (py "Done. Videos in outputs/").

(** The whole script: lines 15-26, then the main block. *)
Definition script : M unit :=
  (if str_truthy (api_key E) then mret tt else raise SystemExit);;
  mkdir_exist_ok OUT_DIR;;
  mkdir_exist_ok ASSETS_DIR;;
  main.
End Script.
End GenerateVideos.

(** ** [generate_videos_local.py] *)
Module GenerateVideosLocal.
Section Script.
Context `{UnicodeDb} (E : env).

(** [c in ['.', ')']] *)
Definition is_mark (c : N) : bool := ((c =? 46) || (c =? 41))%N.

(** The [while] of lines 60-61, started at [idx] with [rest = line[idx:]]:
    [idx < len(line)] is [rest] being non-empty and [line[idx]] its head. *)
Fixpoint while_idx (rest : pystr) (idx : nat) : nat :=
  match rest with
  | [] => idx
  | c :: rest' => if negb (is_mark c) then while_idx rest' (S idx) else idx
  end.

(** Lines 57-62. *)
Definition strip_numbering (line : pystr) : outcome pystr :=
  numbered ← (if (1 <? length line)%nat
              then c0 ← index line 0;
                   if isdigit c0
                   then c1 ← index line 1; mret (is_mark c1)
                   else mret false
              else mret false);
  if (numbered : bool) then
    let idx := while_idx (drop 1 line) 1 in
    if (idx <? length line)%nat then mret (strip (drop (idx + 1) line))
    else mret line
  else mret line.

(** The loop of lines 52-63. *)
Fixpoint parse_lines (todo : list pystr) (lines : list pystr)
  : outcome (list pystr) :=
  match todo with
  | [] => mret lines
  | line :: todo' =>
      match strip line with
      | [] => parse_lines todo' lines
      | line =>
          line ← strip_numbering line;
          parse_lines todo' (lines ++ [line])
      end
  end.

(** Lines 51-69, from the text of the reply on. *)
Definition tips_of_text (text : pystr) (num_tips : Z)
  : outcome (list pystr) :=
  lines ← parse_lines (splitlines text) [];
  let lines :=
    if len_lt lines num_tips then fallback_sentences text num_tips
    else lines in
  mret (slice_to lines num_tips).

(** Lines 34-69. *)
Definition generate_tech_tips (num_tips : Z) : outcome (list pystr) :=
  text ← completion E num_tips;
  tips_of_text text num_tips.

(** Lines 77-100: the caption is drawn (any failure of the drawing is a
    [RenderError]), saved under a fresh name and loaded back as a clip;
    the name is returned with the clip. *)
Definition create_text_image_clip (text : pystr) (w h : Z)
    (duration : pynum) : M (clip * string) :=
  (if render_ok E text then mret tt else raise RenderError);;
  hex ← uuid4_hex E;
  let tmp := path_join OUT_DIR ("text_" +:+ hex +:+ ".png") in
  write_file tmp (FImage w h);;
  clip ← ImageClip tmp;
  mret (set_duration duration clip, tmp).

(** Lines 111-121: the background track. *)
Definition background (clip_duration : pynum) (bg_color : Z * Z * Z)
    (use_stock_clip : option string) : M clip :=
  use ← (if str_truthy use_stock_clip
         then path_exists (default EmptyString use_stock_clip)
         else mret false);
  if (use : bool) then
    try_except_Exception
      (bg ← VideoFileClip (default EmptyString use_stock_clip);
       bg ← lift (resize_height H bg);
       let bg :=
         if W <? c_w bg
         then crop_centered (c_w bg) W (Some (c_h bg, H)) bg
         else bg in
       native ← lift (duration_of bg);
       bg ← lift (subclip (PInt 0) (py_min clip_duration native) bg);
       mret (set_duration clip_duration bg))
      (mret (ColorClip W H bg_color clip_duration))
  else mret (ColorClip W H bg_color clip_duration).

(** Lines 103-138. *)
Definition build_video (tip_text : pystr) (output_path : string)
    (duration : option pynum) (bg_color : Z * Z * Z)
    (use_stock_clip : option string) : M unit :=
  audio_file ← lift (with_suffix output_path ".mp3");
  create_voice E tip_text audio_file;;
  audio ← AudioFileClip audio_file;
  let aud_duration := a_duration audio in
  let clip_duration := clip_duration_of duration aud_duration in
  bg ← background clip_duration bg_color use_stock_clip;
  '(txt_clip, tmp_img) ← create_text_image_clip tip_text W H clip_duration;
  let final :=
    set_duration clip_duration (CompositeVideoClip [bg; txt_clip] W H) in
  let final := set_audio audio final in
  write_videofile E final output_path;;
  try_except (audio_close E audio) (mret tt);;
  try_except (unlink E tmp_img) (mret tt).

(** The loop of lines 145-152, from index [i] on. *)
Fixpoint main_loop (i : nat) (tips : list pystr)
    (stock_candidates : list string) (results : list entry)
  : M (list entry) :=
  match tips with
  | [] => mret results
  | tip :: tips' =>
      ts ← time_now E;
      let name := video_name ts i in
      let out_path := path_join OUT_DIR name in
      stock ← lift (match stock_candidates with
                    | [] => Ok None
                    | _ => p ← index stock_candidates
                               (i `mod` length stock_candidates)%nat;
                           Ok (Some p)
                    end);
      print E (py "Generating: " ++ tip);;
      build_video tip out_path None (18, 18, 18) stock;;
      let results := results ++ [(tip, out_path)] in
      sleep 1;;
      main_loop (S i) tips' stock_candidates results
  end.

(** Lines 141-156. *)
Definition main : M unit :=
  tips ← lift (generate_tech_tips 5);
  stock_candidates ← glob_sorted ASSETS_DIR ".mp4";
  results ← main_loop 0 tips stock_candidates [];
  write_file manifest_path (FManifest results);;
  print E (py "Done. Videos in outputs/").

(** The whole script: lines 19-31, then the main block. *)
Definition script : M unit :=
  (if str_truthy (api_key E) then mret tt else raise SystemExit);;
  mkdir_exist_ok OUT_DIR;;
  mkdir_exist_ok ASSETS_DIR;;
  main.
End Script.
End GenerateVideosLocal.

(** * Statements

    Vocabulary of the properties: sample inputs, the events of a run and
    what the specification asks of a batch. *)

(** A digit table with no digit beyond ASCII, for running the scripts on
    ASCII inputs, where the table is not consulted. *)
Definition ascii_only_db : UnicodeDb := {| unicode_digit := fun _ => false |}.

Definition newline : string := String (ascii_of_nat 10) EmptyString.

(** The non-blank lines of a reply, trimmed: what both loops iterate on. *)
Definition nonblank_lines (text : pystr) : list pystr :=
  List.filter (fun l => negb (bool_decide (l = [])))
    (map strip (splitlines text)).

(** A trimmed line without its numbering, in the words of the
    specification: a leading digit and the ['.'] or [')'] after it are
    removed and the rest is trimmed again. *)
Definition without_marker `{UnicodeDb} (line : pystr) : pystr :=
  match line with
  | d :: m :: rest =>
      if isdigit d && ((m =? 46) || (m =? 41))%N then strip rest else line
  | _ => line
  end.

Definition env_replying (text : pystr) : env :=
  Env (Some "sk-test") (fun _ => Ok text)
    (fun _ => Ok (S754_finite false 4503599627370496 (-51)))
    (fun _ => true) (fun _ => true) (fun _ => true) true
    (fun n => 1700000000 + Z.of_nat n) (fun n => pretty n)
    (fun _ => (972, 300)) (fun _ => true).

Definition six_sentences : pystr :=
  py ("Always lock your screen. Back up your files weekly!  "
      +:+ "Do you update often? Use a password manager. Ok. "
      +:+ "Restart a slow machine first. Keep your drivers patched.").

Definition apply_event (d : gmap string file) (e : event)
  : gmap string file :=
  match e with
  | EvWrite p f => <[p:=f]> d
  | EvUnlink p => delete p d
  | _ => d
  end.

(** The disk after the events [evs], from the disk [d]. *)
Definition replay (evs : list event) (d : gmap string file)
  : gmap string file :=
  foldl apply_event d evs.

(** [w'] is reached from [w] by events that all satisfy [P]; the disk
    changes by those events and by nothing else. *)
Definition run (P : event -> Prop) (w w' : world) : Prop :=
  exists evs,
    trace w' = trace w ++ evs
    /\ disk w' = replay evs (disk w)
    /\ Forall P evs.

(** Whatever [m] returns or raises, it only does [P]-events. *)
Definition always {A} (P : event -> Prop) (m : M A) : Prop :=
  forall w, run P w (m w).2.

(** Computations that read the world but leave it as it is. *)
Definition readonly {A} (m : M A) : Prop := forall w, (m w).2 = w.

(** Events of the per-tip work: a video is written to a name ending in
    [4], a narration to one ending in [3], a caption image to one ending in
    [g]; only caption images are deleted; no manifest is written. *)
Definition tip_event (e : event) : Prop :=
  match e with
  | EvWrite p (FVideo _ _ _) => last_char p = Some "4"%char
  | EvWrite p (FAudio _) => last_char p = Some "3"%char
  | EvWrite p (FImage _ _) => last_char p = Some "g"%char
  | EvWrite p _ => False
  | EvUnlink p => last_char p = Some "g"%char
  | EvPrint _ | EvSleep _ => True
  end.

(** The world after one more event. *)
Definition after (w : world) (e : event) : world :=
  World (apply_event (disk w) e) (trace w ++ [e]) (clock_reads w)
    (uuid_draws w).

Definition underscore : ascii := "_"%char.

(** What a finished build of either script leaves in the trace. *)
Definition build_done (E : env) (tip : pystr) (out : string)
    (dur : option pynum) (w w' : world) : Prop :=
  exists aud evs,
    tts E tip = Ok aud
    /\ trace w' = trace w ++ evs
    /\ In (EvWrite out (FVideo W H (clip_duration_of dur aud))) evs.

(** The entries a finished loop added: one per tip, in order, each naming
    a video the loop wrote under the name built for its index. *)
Definition loop_done (E : env) (i : nat) (tips : list pystr)
    (acc res : list entry) (w w' : world) : Prop :=
  exists new evs,
    res = acc ++ new
    /\ map fst new = tips
    /\ trace w' = trace w ++ evs
    /\ forall k entry, new !! k = Some entry ->
         exists ts aud,
           entry.2 = path_join OUT_DIR (video_name ts (i + k))
           /\ tts E entry.1 = Ok aud
           /\ In (EvWrite entry.2 (FVideo W H (computed_duration aud))) evs.

(** A clock that stands still: both tips of the batch read the same time. *)
Definition env_frozen_clock : env :=
  Env (Some "sk-test") (fun _ => Ok [])
    (fun _ => Ok (S754_finite false 4503599627370496 (-51)))
    (fun _ => true) (fun _ => true) (fun _ => true) true
    (fun _ => 1700000000) (fun n => pretty n) (fun _ => (972, 300))
    (fun _ => true).

Definition done_message : pystr := py "Done. Videos in outputs/".

(** What a batch script owes, [generated] being what its tip generator
    returns.  The events [evs] of the run account for the trace and for the
    disk.  If the script finishes, the manifest is the last file written,
    it is written once, it lists the generated tips in order, and every
    listed file is a video written earlier in the run.  If the script
    raises, the exit status is not zero, the run wrote no manifest, the
    manifest path holds what it held before, and every video the run wrote
    is still on the disk. *)
Definition batch_contract (E : env) (script : M unit)
    (generated : outcome (list pystr)) : Prop :=
  forall w,
    exists evs,
      trace (script w).2 = trace w ++ evs
      /\ disk (script w).2 = replay evs (disk w)
      /\ match (script w).1 with
         | Ok _ =>
             exit_status (script w).1 = 0
             /\ exists evs_tips results,
                  evs = evs_tips
                        ++ [EvWrite manifest_path (FManifest results);
                            EvPrint done_message]
                  /\ (forall f, ~ In (EvWrite manifest_path f) evs_tips)
                  /\ generated = Ok (map fst results)
                  /\ (forall entry, In entry results ->
                        exists aud,
                          In (EvWrite entry.2
                                (FVideo W H (computed_duration aud)))
                            evs_tips)
                  /\ disk (script w).2 !! manifest_path
                     = Some (FManifest results)
         | Raise _ =>
             exit_status (script w).1 <> 0
             /\ (forall f, ~ In (EvWrite manifest_path f) evs)
             /\ disk (script w).2 !! manifest_path = disk w !! manifest_path
             /\ (forall p wd ht d,
                   In (EvWrite p (FVideo wd ht d)) evs ->
                   is_Some (disk (script w).2 !! p))
         end.

(** The main block of either script, over its own tip generator and loop. *)
Definition main_over (E : env) (generated : outcome (list pystr))
    (loop : list pystr -> list string -> M (list entry)) : M unit :=
  tips ← lift generated;
  stock_candidates ← glob_sorted ASSETS_DIR ".mp4";
  results ← loop tips stock_candidates;
  write_file manifest_path (FManifest results);;
  print E done_message.

(** The start of either script: the key, then the two directories. *)
Definition script_over (E : env) (generated : outcome (list pystr))
    (loop : list pystr -> list string -> M (list entry)) : M unit :=
  (if str_truthy (api_key E) then mret tt else raise SystemExit);;
  mkdir_exist_ok OUT_DIR;;
  mkdir_exist_ok ASSETS_DIR;;
  main_over E generated loop.

Definition two_seconds : spec_float :=
  S754_finite false 4503599627370496 (-51).

Definition ten_seconds : spec_float :=
  S754_finite false 5629499534213120 (-49).

Definition empty_world : world := World ∅ [] 0 0.

Definition world_with_stock (f : file) : world :=
  World {["assets/a.mp4" := f]} [] 0 0.

Definition five_tips : pystr :=
  py ("1. Tip A." +:+ newline +:+ "2. Tip B." +:+ newline +:+ "3. Tip C."
      +:+ newline +:+ "4. Tip D." +:+ newline +:+ "5. Tip E.").

(** The text-to-speech service refuses the third tip. *)
Definition env_failing_third : env :=
  Env (Some "sk-test") (fun _ => Ok five_tips)
    (fun t => if bool_decide (t = py "Tip C.") then Raise ServiceError
              else Ok two_seconds)
    (fun _ => true) (fun _ => true) (fun _ => true) true
    (fun n => 1700000000 + Z.of_nat n) (fun n => pretty n)
    (fun _ => (972, 300)) (fun _ => true).

(** What [generate_videos.py] makes of a trimmed line: a digit and a ['.']
    are cut; after a digit and a [')'] the line is cut at its first ['.'],
    wherever that is, and kept whole when it has none. *)
Definition remote_entry `{UnicodeDb} (line : pystr) : pystr :=
  match line with
  | d :: m :: rest =>
      if isdigit d && (m =? 46)%N then strip rest
      else if isdigit d && (m =? 41)%N then
        match split_once 46%N rest with
        | [_; tail] => strip tail
        | _ => line
        end
      else line
  | _ => line
  end.

(** A trimmed line on which the two scripts can differ: a lone digit, or a
    digit followed by [')']. *)
Definition touchy_line `{UnicodeDb} (line : pystr) : bool :=
  match line with
  | [d] => isdigit d
  | d :: m :: _ => isdigit d && (m =? 41)%N
  | [] => false
  end.

Definition lone_digit `{UnicodeDb} (line : pystr) : bool :=
  match line with
  | [d] => isdigit d
  | _ => false
  end.

Definition three_numbered_lines : pystr :=
  py ("1. Use two monitors." +:+ newline +:+ "2) Lock your screen. Always."
      +:+ newline +:+ newline +:+ "10. Restart weekly.").

(** The characters of a decimal numeral. *)
Definition numeral_char (a : ascii) : bool :=
  bool_decide (a ∈ chars "0123456789-").

(** The stem of an output name: letters, digits, underscores and dashes. *)
Definition video_stem (ts : Z) (i : nat) : string :=
  "tech_tip_" +:+ pretty ts +:+ "_" +:+ pretty (Z.of_nat i + 1).

(** A background that fits the frame and lasts [d]. *)
Definition fits_frame (d : pynum) (bg : clip) : Prop :=
  c_duration bg = Some d /\ c_h bg = H /\ c_w bg <= W.

(** The stock clip, when one is named, is a file of the disk: what the main
    block passes, which takes the names from the [assets] directory. *)
Definition stock_on_disk (w : world) (stock : option string) : Prop :=
  forall p, stock = Some p -> p = EmptyString \/ is_Some (disk w !! p).

(** The world after the caption image [tmp] is saved: one more name drawn,
    one more file. *)
Definition captioned (w : world) (tmp : string) (wd ht : Z) : world :=
  World (<[tmp:=FImage wd ht]> (disk w))
    (trace w ++ [EvWrite tmp (FImage wd ht)])
    (clock_reads w) (S (uuid_draws w)).

(** The name of the caption image drawn in world [w]. *)
Definition caption_path (E : env) (w : world) : string :=
  path_join OUT_DIR ("text_" +:+ uuid_at E (uuid_draws w) +:+ ".png").

(** Services of which one fails: the drawing, or the encoder. *)
Definition env_no_render : env :=
  Env (Some "sk-test") (fun _ => Ok five_tips) (fun _ => Ok two_seconds)
    (fun _ => false) (fun _ => true) (fun _ => true) true
    (fun n => 1700000000 + Z.of_nat n) (fun n => pretty n)
    (fun _ => (972, 300)) (fun _ => true).

Definition env_no_encode : env :=
  Env (Some "sk-test") (fun _ => Ok five_tips) (fun _ => Ok two_seconds)
    (fun _ => true) (fun _ => false) (fun _ => true) true
    (fun n => 1700000000 + Z.of_nat n) (fun n => pretty n)
    (fun _ => (972, 300)) (fun _ => true).



(** The world a finished run leaves: the manifest, then the last message. *)
Definition finished (w : world) (results : list entry) : world :=
  after (after w (EvWrite manifest_path (FManifest results)))
    (EvPrint done_message).

(** The tips of [five_tips]. *)
Definition five_tips_read : list pystr :=
  [py "Tip A."; py "Tip B."; py "Tip C."; py "Tip D."; py "Tip E."].


(** Services without a key, and services whose completion fails. *)
Definition env_without_key : env :=
  Env None (fun _ => Ok five_tips) (fun _ => Ok two_seconds)
    (fun _ => true) (fun _ => true) (fun _ => true) true
    (fun n => 1700000000 + Z.of_nat n) (fun n => pretty n)
    (fun _ => (972, 300)) (fun _ => true).

Definition env_no_completion : env :=
  Env (Some "sk-test") (fun _ => Raise ServiceError)
    (fun _ => Ok two_seconds)
    (fun _ => true) (fun _ => true) (fun _ => true) true
    (fun n => 1700000000 + Z.of_nat n) (fun n => pretty n)
    (fun _ => (972, 300)) (fun _ => true).


(** The messages printed, and the pauses made, in a list of events. *)
Definition printed (evs : list event) : list pystr :=
  omap (fun e => match e with EvPrint m => Some m | _ => None end) evs.

Definition slept (evs : list event) : list Z :=
  omap (fun e => match e with EvSleep s => Some s | _ => None end) evs.

(** The progress line of a tip: [print("Generating:", tip)]. *)
Definition progress_line (tip : pystr) : pystr := py "Generating: " ++ tip.

(** A step that prints nothing and makes no pause. *)
Definition quiet (w w' : world) : Prop :=
  exists evs, trace w' = trace w ++ evs /\ printed evs = [] /\ slept evs = [].

(** The output of a loop over [tips] whose builds are quiet. *)
Definition loop_output (tips : list pystr) (w w' : world) : Prop :=
  exists evs,
    trace w' = trace w ++ evs
    /\ printed evs = map progress_line tips
    /\ slept evs = map (fun _ => 1) tips.

(** What a finished run of [script] shows, [generated] being what its tip
    generator returns: one progress line per tip, in order, then the last
    message; and a pause of one second after every tip. *)
Definition finished_output (script : M unit)
    (generated : outcome (list pystr)) : Prop :=
  forall w w',
    script w = (Ok tt, w') ->
    exists tips evs,
      generated = Ok tips
      /\ trace w' = trace w ++ evs
      /\ printed evs = map progress_line tips ++ [done_message]
      /\ slept evs = map (fun _ => 1) tips.









(** What keeps a batch script going, and what stops it: [generated] is
    what its tip generator returns and [loop] its loop over the tips,
    given the stock clips found.  Without a key the script exits at once;
    a regular file in the place of a directory stops it next; a tip
    generator that raises stops it with that exception.  Then the loop
    runs: if it raises, the script raises the same and does nothing more;
    if it returns, the script writes the manifest of its results, prints
    the last message and finishes. *)
Definition batch_progress (E : env) (script : M unit)
    (generated : outcome (list pystr))
    (loop : list pystr -> list string -> M (list entry)) : Prop :=
  forall w,
    (str_truthy (api_key E) = false -> (script w).1 = Raise SystemExit)
    /\ (str_truthy (api_key E) = true ->
        is_Some (disk w !! OUT_DIR) \/ is_Some (disk w !! ASSETS_DIR) ->
        (script w).1 = Raise OSError)
    /\ (str_truthy (api_key E) = true ->
        disk w !! OUT_DIR = None -> disk w !! ASSETS_DIR = None ->
        (forall e, generated = Raise e -> (script w).1 = Raise e)
        /\ (forall tips cands,
              generated = Ok tips ->
              glob_sorted ASSETS_DIR ".mp4" w = (Ok cands, w) ->
              match loop tips cands w with
              | (Ok results, w3) => script w = (Ok tt, finished w3 results)
              | (Raise e, w3) => script w = (Raise e, w3)
              end)).

(** How a loop over the tips goes on, [build] being what it does for one
    tip, its output path and its stock clip.  With no tip left it returns
    its results.  Otherwise it reads the clock for the name of the output,
    takes the stock clip in turn, and prints the progress line - raising
    when stdout cannot show the tip.  Then it builds: if the build raises,
    the loop raises the same and does nothing more; if the build returns,
    the loop adds the entry, pauses one second and goes on with the next
    tip. *)
Definition loop_progress (E : env)
    (loop : nat -> list pystr -> list string -> list entry
            -> M (list entry))
    (build : pystr -> string -> option string -> M unit) : Prop :=
  forall i tip tips cands acc w,
    loop i [] cands acc w = (Ok acc, w)
    /\ exists stock,
         match cands with
         | [] => stock = None
         | _ => cands !! (i `mod` length cands)%nat = stock
         end
         /\ let out :=
              path_join OUT_DIR (video_name (time_at E (clock_reads w)) i) in
            let w1 := (time_now E w).2 in
            (forallb (encodable E) tip = false ->
             (loop i (tip :: tips) cands acc w).1 = Raise ValueError)
            /\ (forallb (encodable E) tip = true ->
                match build tip out stock
                        (after w1 (EvPrint (progress_line tip))) with
                | (Raise e, w3) =>
                    loop i (tip :: tips) cands acc w = (Raise e, w3)
                | (Ok _, w3) =>
                    loop i (tip :: tips) cands acc w
                    = loop (S i) tips cands (acc ++ [(tip, out)])
                        (after w3 (EvSleep 1))
                end).

(** * Properties *)

(** ** Slices and the line parsers *)




Arguments contains : simpl never.
Arguments split_once : simpl never.
Arguments strip : simpl never.
Arguments isdigit : simpl never.
Arguments isspace : simpl never.
Arguments GenerateVideosLocal.is_mark : simpl never.

Section TipLemmas.
Context `{UnicodeDb}.

Lemma isdigit_not_dot (d : N) : isdigit d = true -> d <> 46%N.
Proof.
  unfold isdigit. intros Hd ->. simpl in Hd. discriminate.
Qed.

(** Every exception of the first script's line test is an [IndexError]. *)
Lemma remote_strip_numbering_raise line e :
  GenerateVideos.strip_numbering line = Raise e -> e = IndexError.
Proof.
  unfold GenerateVideos.strip_numbering, index, mret, outcome_ret.
  destruct line as [|c0 [|c1 rest]]; simpl; [congruence| |].
  - destruct (isdigit c0); simpl; congruence.
  - destruct (isdigit c0); simpl; [|congruence].
    destruct (_ || _); [|congruence].
    destruct (contains _ _); [|congruence].
    destruct (_ !! 1%nat); simpl; congruence.
Qed.

Lemma remote_parse_lines_raise todo acc e :
  GenerateVideos.parse_lines todo acc = Raise e -> e = IndexError.
Proof.
  revert acc. induction todo as [|line todo IH]; intros acc; simpl.
  - discriminate.
  - destruct (strip line) as [|c s] eqn:Hs; [apply IH|].
    destruct (GenerateVideos.strip_numbering (c :: s)) as [l|e'] eqn:Hn;
      simpl.
    + apply IH.
    + intros [= <-]. by eapply remote_strip_numbering_raise.
Qed.

(** A line that is one digit and nothing else makes the first script
    read past its end. *)
Lemma remote_strip_numbering_single_digit d :
  isdigit d = true -> GenerateVideos.strip_numbering [d] = Raise IndexError.
Proof.
  intros Hd. unfold GenerateVideos.strip_numbering. simpl. by rewrite Hd.
Qed.

Lemma remote_parse_lines_single_digit todo acc line d :
  line ∈ todo -> strip line = [d] -> isdigit d = true ->
  GenerateVideos.parse_lines todo acc = Raise IndexError.
Proof.
  intros Hin Hs Hd. revert acc.
  induction todo as [|l todo IH]; intros acc; [by inversion Hin|].
  simpl. apply elem_of_cons in Hin as [<-|Hin].
  - rewrite Hs. by rewrite remote_strip_numbering_single_digit.
  - destruct (strip l) as [|c s]; [by apply IH|].
    destruct (GenerateVideos.strip_numbering (c :: s)) as [l'|e] eqn:Hn;
      simpl.
    + by apply IH.
    + by rewrite (remote_strip_numbering_raise _ _ Hn).
Qed.

(** The second script's line test never raises. *)
Lemma local_strip_numbering_ok line :
  exists l, GenerateVideosLocal.strip_numbering line = Ok l.
Proof.
  unfold GenerateVideosLocal.strip_numbering.
  destruct line as [|c0 [|c1 rest]]; simpl; [by eexists..|].
  destruct (isdigit c0); simpl; [|by eexists].
  destruct (GenerateVideosLocal.is_mark c1); simpl; [|by eexists].
  by eexists.
Qed.

Lemma local_parse_lines_ok todo acc :
  exists lines, GenerateVideosLocal.parse_lines todo acc = Ok lines.
Proof.
  revert acc. induction todo as [|line todo IH]; intros acc; simpl.
  - by eexists.
  - destruct (strip line) as [|c s]; [apply IH|].
    destruct (local_strip_numbering_ok (c :: s)) as [l ->]. simpl. apply IH.
Qed.

Lemma local_tips_of_text_ok text n :
  exists tips, GenerateVideosLocal.tips_of_text text n = Ok tips.
Proof.
  unfold GenerateVideosLocal.tips_of_text.
  destruct (local_parse_lines_ok (splitlines text) []) as [lines ->].
  simpl. by eexists.
Qed.


Lemma local_parse_lines_length todo acc lines :
  GenerateVideosLocal.parse_lines todo acc = Ok lines ->
  length lines
  = (length acc
     + length (List.filter (fun l => negb (bool_decide (l = [])))
                 (map strip todo)))%nat.
Proof.
  revert acc. induction todo as [|line todo IH]; intros acc; simpl.
  - intros [= <-]. lia.
  - destruct (strip line) as [|c s]; simpl; [apply IH|].
    destruct (GenerateVideosLocal.strip_numbering (c :: s)) as [l|e]; simpl;
      [|discriminate].
    intros Hp. rewrite (IH _ Hp), length_app. simpl. lia.
Qed.



(** The numbering of a trimmed line [d m rest]. *)
Lemma remote_strip_numbering_dot d rest :
  isdigit d = true ->
  GenerateVideos.strip_numbering (d :: 46%N :: rest) = Ok (strip rest).
Proof.
  intros Hd. unfold GenerateVideos.strip_numbering. simpl. rewrite Hd. simpl.
  assert (contains 46 (d :: 46%N :: rest) = true) as ->
    by (unfold contains; simpl; by rewrite orb_true_r).
  assert (split_once 46 (d :: 46%N :: rest) = [[d]; rest]) as ->.
  { unfold split_once. simpl.
    destruct (N.eqb_spec d 46) as [->|_]; [|reflexivity].
    by apply isdigit_not_dot in Hd. }
  reflexivity.
Qed.

Lemma local_strip_numbering_mark d m rest :
  isdigit d = true -> m = 46%N \/ m = 41%N ->
  GenerateVideosLocal.strip_numbering (d :: m :: rest) = Ok (strip rest).
Proof.
  intros Hd Hm. unfold GenerateVideosLocal.strip_numbering. simpl.
  rewrite Hd. simpl.
  assert (GenerateVideosLocal.is_mark m = true) as ->
    by (destruct Hm as [-> | ->]; reflexivity).
  simpl. reflexivity.
Qed.
End TipLemmas.

(** ** The tip generator *)

Section TipGenerator.
Context `{UnicodeDb}.

Lemma local_strip_numbering_spec line :
  GenerateVideosLocal.strip_numbering line = Ok (without_marker line).
Proof.
  unfold GenerateVideosLocal.strip_numbering, without_marker.
  destruct line as [|d [|m rest]]; simpl; [done..|].
  destruct (isdigit d); simpl; [|done].
  unfold GenerateVideosLocal.is_mark.
  destruct (_ || _) eqn:Hm; simpl; [|done].
  reflexivity.
Qed.

Lemma local_parse_lines_spec todo acc :
  GenerateVideosLocal.parse_lines todo acc
  = Ok (acc ++ map without_marker
                 (List.filter (fun l => negb (bool_decide (l = [])))
                    (map strip todo))).
Proof.
  revert acc. induction todo as [|line todo IH]; intros acc; simpl.
  - by rewrite app_nil_r.
  - destruct (strip line) as [|c s]; simpl; [apply IH|].
    rewrite local_strip_numbering_spec. simpl.
    rewrite IH, <- app_assoc. reflexivity.
Qed.




Lemma keep_sentences_spec sentences t :
  In t (keep_sentences sentences) ->
  exists s, In s sentences /\ t = strip s /\ (10 < length t)%nat.
Proof.
  unfold keep_sentences. intros Hin.
  apply in_map_iff in Hin as (s & <- & Hs).
  apply filter_In in Hs as [Hs Hlong].
  exists s. split; [done|]. split; [done|].
  unfold long_sentence in Hlong. by apply Nat.ltb_lt in Hlong.
Qed.

Lemma In_take {A} (x : A) n l : In x (take n l) -> In x l.
Proof.
  intros Hin. rewrite <- (take_drop n l). apply in_or_app. by left.
Qed.
End TipGenerator.




(** C8.  In the first script a reply with a line that is a single digit
    makes the line test read [line[1]] past the end: the function raises
    [IndexError] and returns nothing.  The second script checks the length
    first and returns a sequence on the same reply. *)
Theorem single_digit_line_raises `{UnicodeDb} (text line : pystr) (d : N)
    (count : Z) :
  line ∈ splitlines text ->
  strip line = [d] ->
  isdigit d = true ->
  GenerateVideos.tips_of_text text count = Raise IndexError
  /\ exists tips, GenerateVideosLocal.tips_of_text text count = Ok tips.
Proof.
  intros Hin Hs Hd. split; [|apply local_tips_of_text_ok].
  unfold GenerateVideos.tips_of_text.
  by rewrite (remote_parse_lines_single_digit _ [] line d Hin Hs Hd).
Qed.

Lemma single_digit_line_raises_witness :
  @GenerateVideos.tips_of_text ascii_only_db (py "1") 5 = Raise IndexError
  /\ exists tips,
       @GenerateVideosLocal.tips_of_text ascii_only_db (py "1") 5 = Ok tips.
Proof.
  apply (@single_digit_line_raises ascii_only_db (py "1") (py "1") 49%N 5).
  - vm_compute. apply list_elem_of_here.
  - reflexivity.
  - reflexivity.
Defined.

Section Paragraphs.
Context `{UnicodeDb}.




End Paragraphs.

(** ** Numbers and the clip duration *)

Lemma fin_compare_antisym m1 e1 m2 e2 :
  fin_compare m2 e2 m1 e1 = CompOpp (fin_compare m1 e1 m2 e2).
Proof.
  unfold fin_compare. rewrite (Z.min_comm e2 e1). apply Z.compare_antisym.
Qed.

Lemma py_lt_le x y : py_lt x y = true -> py_le x y = true.
Proof.
  unfold py_lt, py_le.
  destruct (xval_of x), (xval_of y); try done.
  by destruct (fin_compare _ _ _ _).
Qed.

Lemma py_le_not_lt x y : py_le x y = true -> py_lt y x = false.
Proof.
  unfold py_lt, py_le.
  destruct (xval_of x), (xval_of y); try done.
  rewrite (fin_compare_antisym m e m0 e0).
  by destruct (fin_compare _ _ _ _).
Qed.

Lemma py_lt_not_le x y : py_lt x y = true -> py_le y x = false.
Proof.
  unfold py_lt, py_le.
  destruct (xval_of x), (xval_of y); try done.
  rewrite (fin_compare_antisym m e m0 e0).
  by destruct (fin_compare _ _ _ _).
Qed.

(** Comparison with an integer constant, on the common exponent. *)
Lemma fin_compare_int_trans m e a b c1 c2 :
  a < b ->
  fin_compare m e a 0 = c1 -> c1 <> Gt ->
  fin_compare m e b 0 = c2 -> c2 = Lt.
Proof.
  unfold fin_compare. intros Hab <- Hle <-.
  set (k := Z.min e 0) in *.
  assert (0 < 2 ^ (0 - k)) by (apply Z.pow_pos_nonneg; lia).
  apply Z.compare_lt_iff.
  assert (m * 2 ^ (e - k) <= a * 2 ^ (0 - k)) by (by apply Z.compare_le_iff).
  nia.
Qed.

Lemma py_le_lt_int x a b :
  a < b -> py_le x (PInt a) = true -> py_lt x (PInt b) = true.
Proof.
  intros Hab. unfold py_le, py_lt. simpl.
  destruct (xval_of x); try done.
  destruct (fin_compare m e a 0) eqn:Ha; try done; intros _.
  - by rewrite (fin_compare_int_trans m e a b Eq _ Hab Ha).
  - by rewrite (fin_compare_int_trans m e a b Lt _ Hab Ha).
Qed.

(** The computed duration is a clamp to [8, 25]. *)
Lemma computed_duration_cases (a : spec_float) :
  let x := PFloat (SFadd prec emax a float_half) in
  (py_lt (PInt 8) x = true -> py_lt x (PInt 25) = true ->
   computed_duration a = x)
  /\ (py_le x (PInt 8) = true -> computed_duration a = PInt 8)
  /\ (py_lt x (PInt 25) = false -> computed_duration a = PInt 25).
Proof.
  intros x. unfold computed_duration, py_min, py_max. fold x.
  split; [|split].
  - intros H8 H25. by rewrite H25, H8.
  - intros H8. rewrite (py_le_lt_int x 8 25) by done.
    by rewrite (py_le_not_lt _ _ H8).
  - intros H25. by rewrite H25.
Qed.

Lemma computed_duration_bounds (a : spec_float) :
  py_le (PInt 8) (computed_duration a) = true
  /\ py_le (computed_duration a) (PInt 25) = true.
Proof.
  unfold computed_duration, py_min, py_max.
  set (x := PFloat (SFadd prec emax a float_half)).
  destruct (py_lt x (PInt 25)) eqn:H25.
  - destruct (py_lt (PInt 8) x) eqn:H8.
    + split; by apply py_lt_le.
    + split; reflexivity.
  - split; reflexivity.
Qed.

Lemma computed_duration_not_zero (a : spec_float) :
  computed_duration a <> PInt 0.
Proof.
  intros Heq. destruct (computed_duration_bounds a) as [H8 _].
  rewrite Heq in H8. discriminate.
Qed.

(** ** Runs: what a computation may do to the world *)

Section Runs.
Context (P : event -> Prop).

Lemma run_refl w : run P w w.
Proof. exists []. by rewrite app_nil_r. Qed.

Lemma run_trans w1 w2 w3 : run P w1 w2 -> run P w2 w3 -> run P w1 w3.
Proof.
  intros (evs1 & Ht1 & Hd1 & HP1) (evs2 & Ht2 & Hd2 & HP2).
  exists (evs1 ++ evs2). split; [|split].
  - by rewrite Ht2, Ht1, app_assoc.
  - rewrite Hd2, Hd1. unfold replay. by rewrite foldl_app.
  - by apply Forall_app.
Qed.

Lemma run_event e w w' :
  P e -> trace w' = trace w ++ [e] -> disk w' = apply_event (disk w) e ->
  run P w w'.
Proof. intros He Ht Hd. exists [e]. by repeat split; [..|constructor]. Qed.

Lemma run_same w w' :
  trace w' = trace w -> disk w' = disk w -> run P w w'.
Proof. intros Ht Hd. exists []. by rewrite app_nil_r. Qed.

Lemma always_ret {A} (a : A) : always P (mret a).
Proof. intros w. apply run_refl. Qed.

Lemma always_raise {A} e : always P (@raise A e).
Proof. intros w. apply run_refl. Qed.

Lemma always_lift {A} (o : outcome A) : always P (lift o).
Proof. intros w. apply run_refl. Qed.

Lemma always_bind {A B} (m : M A) (f : A -> M B) :
  always P m -> (forall a, always P (f a)) -> always P (m ≫= f).
Proof.
  intros Hm Hf w. unfold mbind, M_bind.
  specialize (Hm w). destruct (m w) as [[a|e] w1]; simpl in *; [|done].
  eapply run_trans; [exact Hm|apply Hf].
Qed.

Lemma always_try_except {A} (body handler : M A) :
  always P body -> always P handler -> always P (try_except body handler).
Proof.
  intros Hb Hh w. unfold try_except.
  specialize (Hb w). destruct (body w) as [[a|e] w1]; simpl in *; [done|].
  eapply run_trans; [exact Hb|apply Hh].
Qed.

Lemma always_try_except_Exception {A} (body handler : M A) :
  always P body -> always P handler ->
  always P (try_except_Exception body handler).
Proof.
  intros Hb Hh w. unfold try_except_Exception.
  specialize (Hb w). destruct (body w) as [[a|e] w1]; simpl in *; [done|].
  destruct e; simpl;
    first [exact Hb | eapply run_trans; [exact Hb|apply Hh]].
Qed.

Lemma always_print E msg : P (EvPrint msg) -> always P (print E msg).
Proof.
  intros He w. unfold print.
  destruct (forallb _ msg); [by apply (run_event (EvPrint msg))|].
  apply run_refl.
Qed.

Lemma always_sleep secs : P (EvSleep secs) -> always P (sleep secs).
Proof. intros He w. by apply (run_event (EvSleep secs)). Qed.

Lemma always_write_file p f : P (EvWrite p f) -> always P (write_file p f).
Proof. intros He w. by apply (run_event (EvWrite p f)). Qed.

Lemma always_read_file p : always P (read_file p).
Proof.
  intros w. unfold read_file. destruct (disk w !! p); apply run_refl.
Qed.

Lemma always_path_exists p : always P (path_exists p).
Proof. intros w. apply run_refl. Qed.

Lemma always_unlink E p : P (EvUnlink p) -> always P (unlink E p).
Proof.
  intros He w. unfold unlink.
  destruct (disk w !! p); [|apply run_refl].
  destruct (unlink_ok E p); [|apply run_refl].
  by apply (run_event (EvUnlink p)).
Qed.

Lemma always_time_now E : always P (time_now E).
Proof. intros w. by apply run_same. Qed.

Lemma always_uuid4_hex E : always P (uuid4_hex E).
Proof. intros w. by apply run_same. Qed.

Lemma always_mkdir_exist_ok p : always P (mkdir_exist_ok p).
Proof.
  intros w. unfold mkdir_exist_ok. destruct (disk w !! p); apply run_refl.
Qed.

Lemma always_glob_sorted dir ext : always P (glob_sorted dir ext).
Proof. intros w. apply run_refl. Qed.

Lemma always_create_voice E text p :
  (forall d, P (EvWrite p (FAudio d))) -> always P (create_voice E text p).
Proof.
  intros He. apply always_bind; [apply always_lift|].
  intros d. by apply always_write_file.
Qed.

Lemma always_AudioFileClip p : always P (AudioFileClip p).
Proof.
  apply always_bind; [apply always_read_file|].
  intros []; first [apply always_ret | apply always_raise].
Qed.

Lemma always_VideoFileClip p : always P (VideoFileClip p).
Proof.
  apply always_bind; [apply always_read_file|].
  intros []; first [apply always_ret | apply always_raise].
Qed.

Lemma always_ImageClip p : always P (ImageClip p).
Proof.
  apply always_bind; [apply always_read_file|].
  intros []; first [apply always_ret | apply always_raise].
Qed.

Lemma always_TextClip E text : always P (TextClip E text).
Proof.
  unfold TextClip. destruct (render_ok E text);
    [apply always_ret | apply always_raise].
Qed.

Lemma always_write_videofile E c p :
  (forall w h d, P (EvWrite p (FVideo w h d))) ->
  always P (write_videofile E c p).
Proof.
  intros He. apply always_bind; [apply always_lift|].
  intros d. destruct (encode_ok E p);
    [by apply always_write_file | apply always_raise].
Qed.

Lemma always_audio_close E a : always P (audio_close E a).
Proof.
  unfold audio_close. destruct (close_ok E);
    [apply always_ret | apply always_raise].
Qed.
End Runs.

Lemma readonly_ret {A} (a : A) : readonly (mret a : M A).
Proof. by intros w. Qed.

Lemma readonly_raise {A} e : readonly (@raise A e).
Proof. by intros w. Qed.

Lemma readonly_lift {A} (o : outcome A) : readonly (lift o).
Proof. by intros w. Qed.

Lemma readonly_bind {A B} (m : M A) (f : A -> M B) :
  readonly m -> (forall a, readonly (f a)) -> readonly (m ≫= f).
Proof.
  intros Hm Hf w. unfold mbind, M_bind.
  specialize (Hm w). destruct (m w) as [[a|e] w1]; simpl in *; subst; [|done].
  apply Hf.
Qed.

Lemma readonly_try_except_Exception {A} (body handler : M A) :
  readonly body -> readonly handler ->
  readonly (try_except_Exception body handler).
Proof.
  intros Hb Hh w. unfold try_except_Exception.
  specialize (Hb w). destruct (body w) as [[a|e] w1]; simpl in *; subst;
    [done|].
  destruct e; simpl; first [reflexivity | apply Hh].
Qed.

Lemma readonly_read_file p : readonly (read_file p).
Proof. intros w. unfold read_file. by destruct (disk w !! p). Qed.

Lemma readonly_path_exists p : readonly (path_exists p).
Proof. by intros w. Qed.

Lemma readonly_VideoFileClip p : readonly (VideoFileClip p).
Proof.
  apply readonly_bind; [apply readonly_read_file|].
  intros []; first [apply readonly_ret | apply readonly_raise].
Qed.

Lemma remote_background_readonly d color stock :
  readonly (GenerateVideos.background d color stock).
Proof.
  unfold GenerateVideos.background.
  apply readonly_bind.
  { destruct (str_truthy stock);
      [apply readonly_path_exists | apply readonly_ret]. }
  intros [|]; [|apply readonly_ret].
  apply readonly_bind; [apply readonly_VideoFileClip|]. intros bg.
  apply readonly_bind; [apply readonly_lift|]. intros bg1.
  apply readonly_bind; [apply readonly_lift|]. intros native.
  apply readonly_bind; [apply readonly_lift|]. intros bg2.
  apply readonly_ret.
Qed.

Lemma local_background_readonly d color stock :
  readonly (GenerateVideosLocal.background d color stock).
Proof.
  unfold GenerateVideosLocal.background.
  apply readonly_bind.
  { destruct (str_truthy stock);
      [apply readonly_path_exists | apply readonly_ret]. }
  intros [|]; [|apply readonly_ret].
  apply readonly_try_except_Exception; [|apply readonly_ret].
  apply readonly_bind; [apply readonly_VideoFileClip|]. intros bg.
  apply readonly_bind; [apply readonly_lift|]. intros bg1.
  apply readonly_bind; [apply readonly_lift|]. intros native.
  apply readonly_bind; [apply readonly_lift|]. intros bg2.
  apply readonly_ret.
Qed.

Lemma readonly_always {A} P (m : M A) : readonly m -> always P m.
Proof. intros Hm w. rewrite Hm. apply run_refl. Qed.

(** ** File names *)

Lemma chars_app (a b : string) : chars (a +:+ b) = chars a ++ chars b.
Proof.
  unfold chars. induction a as [|c a IH]; simpl; [done|]. by rewrite IH.
Qed.

Lemma chars_nil_inv (s : string) : chars s = [] -> s = EmptyString.
Proof. by destruct s. Qed.

Lemma last_char_app (a b : string) :
  b <> EmptyString -> last_char (a +:+ b) = last_char b.
Proof.
  intros Hb. unfold last_char. rewrite chars_app, last_app.
  destruct (last (chars b)) eqn:Hl; [done|].
  apply last_None in Hl. by apply chars_nil_inv in Hl.
Qed.

Lemma with_suffix_last_char p suffix q :
  suffix <> EmptyString -> with_suffix p suffix = Ok q ->
  last_char q = last_char suffix.
Proof.
  intros Hs. unfold with_suffix.
  destruct (until_char "/" (rev (chars p))) as [rname rparent].
  destruct rname as [|c rname]; [discriminate|].
  destruct (String.eqb p "."); [discriminate|].
  intros [= <-].
  rewrite last_char_app; [by apply last_char_app|].
  intros Heq. apply (f_equal chars) in Heq. rewrite chars_app in Heq.
  apply app_eq_nil in Heq as [_ Heq]. by apply chars_nil_inv in Heq.
Qed.

Lemma video_path_last_char ts i :
  last_char (path_join OUT_DIR (video_name ts i)) = Some "4"%char.
Proof.
  unfold path_join, video_name.
  repeat (rewrite last_char_app; [|by destruct (pretty _)]).
  rewrite !last_char_app; done.
Qed.

Lemma caption_path_last_char hex :
  last_char (path_join OUT_DIR ("text_" +:+ hex +:+ ".png")) = Some "g"%char.
Proof.
  unfold path_join. rewrite !last_char_app; try done.
  - by destruct hex.
Qed.

(** ** What a per-tip build may do *)

Lemma always_bind_post {A B} P (Q : A -> Prop) (m : M A) (f : A -> M B) :
  always P m ->
  (forall w a, (m w).1 = Ok a -> Q a) ->
  (forall a, Q a -> always P (f a)) ->
  always P (m ≫= f).
Proof.
  intros Hm HQ Hf w. unfold mbind, M_bind.
  specialize (Hm w). specialize (HQ w).
  destruct (m w) as [[a|e] w1]; simpl in *; [|done].
  eapply run_trans; [exact Hm|]. by apply Hf, HQ.
Qed.

Lemma lift_value {A} (o : outcome A) w a : (lift o w).1 = Ok a -> o = Ok a.
Proof. done. Qed.

Section Builds.
Context `{UnicodeDb} (E : env).

Lemma local_caption_path text w h d w0 c tmp :
  (GenerateVideosLocal.create_text_image_clip E text w h d w0).1
  = Ok (c, tmp) ->
  last_char tmp = Some "g"%char.
Proof.
  unfold GenerateVideosLocal.create_text_image_clip, mbind, M_bind.
  destruct (render_ok E text); simpl; [|discriminate].
  unfold ImageClip, read_file, mbind, M_bind. simpl.
  rewrite lookup_insert_eq. simpl. intros [= <- <-].
  apply caption_path_last_char.
Qed.

Lemma local_caption_always text w h d :
  always tip_event (GenerateVideosLocal.create_text_image_clip E text w h d).
Proof.
  unfold GenerateVideosLocal.create_text_image_clip.
  apply always_bind.
  { destruct (render_ok E text); [apply always_ret | apply always_raise]. }
  intros _. apply always_bind; [apply always_uuid4_hex|]. intros hex.
  apply always_bind.
  { apply always_write_file. apply caption_path_last_char. }
  intros _. apply always_bind; [apply always_ImageClip|]. intros c.
  apply always_ret.
Qed.

Lemma remote_build_video_always tip out dur color stock :
  last_char out = Some "4"%char ->
  always tip_event (GenerateVideos.build_video E tip out dur color stock).
Proof.
  intros Hout. unfold GenerateVideos.build_video.
  eapply always_bind_post; [apply always_lift|apply lift_value|].
  intros audio_file Hsuf. cbv beta in Hsuf.
  apply with_suffix_last_char in Hsuf; [|done].
  apply always_bind; [by apply always_create_voice|]. intros _.
  apply always_bind; [apply always_AudioFileClip|]. intros audio.
  apply always_bind.
  { apply readonly_always, remote_background_readonly. }
  intros bg. apply always_bind; [apply always_TextClip|]. intros txt.
  apply always_bind; [apply always_TextClip|]. intros cta.
  apply always_bind; [by apply always_write_videofile|]. intros _.
  apply always_try_except; [apply always_audio_close|apply always_ret].
Qed.

Lemma local_build_video_always tip out dur color stock :
  last_char out = Some "4"%char ->
  always tip_event
    (GenerateVideosLocal.build_video E tip out dur color stock).
Proof.
  intros Hout. unfold GenerateVideosLocal.build_video.
  eapply always_bind_post; [apply always_lift|apply lift_value|].
  intros audio_file Hsuf. cbv beta in Hsuf.
  apply with_suffix_last_char in Hsuf; [|done].
  apply always_bind; [by apply always_create_voice|]. intros _.
  apply always_bind; [apply always_AudioFileClip|]. intros audio.
  apply always_bind.
  { apply readonly_always, local_background_readonly. }
  intros bg.
  eapply (always_bind_post _ (fun r => last_char r.2 = Some "g"%char));
    [apply local_caption_always| |].
  { intros w [c tmp]. apply local_caption_path. }
  intros [txt tmp] Htmp. simpl in Htmp.
  apply always_bind; [by apply always_write_videofile|]. intros _.
  apply always_bind.
  { apply always_try_except; [apply always_audio_close|apply always_ret]. }
  intros _.
  apply always_try_except; [by apply always_unlink|apply always_ret].
Qed.

Lemma remote_main_loop_always tips : forall i stock results,
  always tip_event (GenerateVideos.main_loop E i tips stock results).
Proof.
  induction tips as [|tip tips IH]; intros i stock results; simpl.
  - apply always_ret.
  - apply always_bind; [apply always_time_now|]. intros ts.
    apply always_bind; [apply always_lift|]. intros st.
    apply always_bind; [by apply always_print|]. intros _.
    apply always_bind.
    { apply remote_build_video_always, video_path_last_char. }
    intros _. apply always_bind; [by apply always_sleep|]. intros _.
    apply IH.
Qed.

Lemma local_main_loop_always tips : forall i stock results,
  always tip_event (GenerateVideosLocal.main_loop E i tips stock results).
Proof.
  induction tips as [|tip tips IH]; intros i stock results; simpl.
  - apply always_ret.
  - apply always_bind; [apply always_time_now|]. intros ts.
    apply always_bind; [apply always_lift|]. intros st.
    apply always_bind; [by apply always_print|]. intros _.
    apply always_bind.
    { apply local_build_video_always, video_path_last_char. }
    intros _. apply always_bind; [by apply always_sleep|]. intros _.
    apply IH.
Qed.
End Builds.

(** ** Successful steps, inverted *)

Lemma bind_ok_inv {A B} (m : M A) (f : A -> M B) w b w' :
  (m ≫= f) w = (Ok b, w') ->
  exists a w1, m w = (Ok a, w1) /\ f a w1 = (Ok b, w').
Proof.
  unfold mbind, M_bind. destruct (m w) as [[a|e] w1]; [eauto|discriminate].
Qed.

Lemma lift_ok_inv {A} (o : outcome A) w a w' :
  lift o w = (Ok a, w') -> o = Ok a /\ w' = w.
Proof. by intros [= -> ->]. Qed.

Lemma always_step {A} P (m : M A) w r w' :
  always P m -> m w = (r, w') -> run P w w'.
Proof. intros Hm Hw. specialize (Hm w). by rewrite Hw in Hm. Qed.

Lemma readonly_step {A} (m : M A) w r w' :
  readonly m -> m w = (r, w') -> w' = w.
Proof. intros Hm Hw. specialize (Hm w). by rewrite Hw in Hm. Qed.

Lemma create_voice_ok_inv E text p w w' :
  create_voice E text p w = (Ok tt, w') ->
  exists d, tts E text = Ok d /\ w' = after w (EvWrite p (FAudio d)).
Proof.
  unfold create_voice. intros Hb.
  apply bind_ok_inv in Hb as (d & w1 & Hd & Hb).
  apply lift_ok_inv in Hd as [Hd ->].
  exists d. split; [done|]. by injection Hb as <-.
Qed.

Lemma AudioFileClip_ok_inv p w a w' :
  AudioFileClip p w = (Ok a, w') ->
  w' = w /\ exists d, disk w !! p = Some (FAudio d) /\ a = AudioClip p d.
Proof.
  unfold AudioFileClip, read_file, mbind, M_bind.
  destruct (disk w !! p) as [[]|]; try discriminate.
  intros [= <- <-]. eauto.
Qed.

Lemma TextClip_ok_inv E text w c w' :
  TextClip E text w = (Ok c, w') -> w' = w.
Proof.
  unfold TextClip. destruct (render_ok E text); [|discriminate].
  by intros [= _ <-].
Qed.

Lemma write_videofile_ok_inv E c p w w' :
  write_videofile E c p w = (Ok tt, w') ->
  exists d, c_duration c = Some d
            /\ w' = after w (EvWrite p (FVideo (c_w c) (c_h c) d)).
Proof.
  unfold write_videofile. intros Hb.
  apply bind_ok_inv in Hb as (d & w1 & Hd & Hb).
  apply lift_ok_inv in Hd as [Hd ->].
  unfold duration_of in Hd. destruct (c_duration c) as [d'|]; [|discriminate].
  injection Hd as ->. exists d. split; [done|].
  destruct (encode_ok E p); [|discriminate]. by injection Hb as <-.
Qed.

(** Closing the reader: failures are swallowed. *)
Lemma audio_close_swallowed E a w :
  try_except (audio_close E a) (mret tt) w = (Ok tt, w).
Proof.
  unfold try_except, audio_close. by destruct (close_ok E).
Qed.

(** Deleting the caption image: failures are swallowed too. *)
Lemma unlink_swallowed E p w :
  try_except (unlink E p) (mret tt) w
  = (Ok tt,
     if bool_decide (is_Some (disk w !! p)) && unlink_ok E p
     then after w (EvUnlink p) else w).
Proof.
  unfold try_except, unlink.
  destruct (disk w !! p) as [f|] eqn:Hp; simpl.
  - by destruct (unlink_ok E p).
  - done.
Qed.

Lemma local_caption_ok_inv E text wd ht d w c tmp w' :
  GenerateVideosLocal.create_text_image_clip E text wd ht d w
  = (Ok (c, tmp), w') ->
  tmp = path_join OUT_DIR ("text_" +:+ uuid_at E (uuid_draws w) +:+ ".png")
  /\ c_duration c = Some d
  /\ trace w' = trace w ++ [EvWrite tmp (FImage wd ht)]
  /\ disk w' = <[tmp:=FImage wd ht]> (disk w).
Proof.
  unfold GenerateVideosLocal.create_text_image_clip, mbind, M_bind.
  destruct (render_ok E text); simpl; [|discriminate].
  unfold ImageClip, read_file, mbind, M_bind. simpl.
  rewrite lookup_insert_eq. simpl. by intros [= <- <- <-].
Qed.

Lemma set_duration_duration d c : c_duration (set_duration d c) = Some d.
Proof. done. Qed.

(** A finished build of the first script did exactly this: it wrote the
    narration, then the video with the computed duration. *)
Lemma remote_build_video_ok E tip out dur color stock w w' :
  GenerateVideos.build_video E tip out dur color stock w = (Ok tt, w') ->
  exists audio_file aud,
    with_suffix out ".mp3" = Ok audio_file
    /\ tts E tip = Ok aud
    /\ w' = after (after w (EvWrite audio_file (FAudio aud)))
              (EvWrite out (FVideo W H (clip_duration_of dur aud))).
Proof.
  unfold GenerateVideos.build_video. intros Hb.
  apply bind_ok_inv in Hb as (audio_file & w1 & Haf & Hb).
  apply lift_ok_inv in Haf as [Haf ->].
  apply bind_ok_inv in Hb as ([] & w2 & Hcv & Hb).
  apply create_voice_ok_inv in Hcv as (aud & Htts & ->).
  apply bind_ok_inv in Hb as (audio & w3 & Haud & Hb).
  apply AudioFileClip_ok_inv in Haud as (-> & aud' & Hlook & ->).
  simpl in Hlook. rewrite lookup_insert_eq in Hlook. injection Hlook as <-.
  apply bind_ok_inv in Hb as (bg & w4 & Hbg & Hb).
  apply (readonly_step _ _ _ _ (remote_background_readonly _ _ _)) in Hbg
    as ->.
  apply bind_ok_inv in Hb as (txt & w5 & Htxt & Hb).
  apply TextClip_ok_inv in Htxt as ->.
  apply bind_ok_inv in Hb as (cta & w6 & Hcta & Hb).
  apply TextClip_ok_inv in Hcta as ->.
  apply bind_ok_inv in Hb as ([] & w7 & Hwr & Hb).
  apply write_videofile_ok_inv in Hwr as (d & Hd & ->).
  rewrite audio_close_swallowed in Hb. injection Hb as <-.
  simpl in Hd. injection Hd as <-.
  exists audio_file, aud. by repeat split.
Qed.

(** A finished build of the second script wrote the narration, the caption
    image and the video, and then deleted the caption image if it could. *)
Lemma local_build_video_ok E tip out dur color stock w w' :
  GenerateVideosLocal.build_video E tip out dur color stock w = (Ok tt, w') ->
  exists audio_file aud,
    with_suffix out ".mp3" = Ok audio_file
    /\ tts E tip = Ok aud
    /\ let tmp := path_join OUT_DIR
                    ("text_" +:+ uuid_at E (uuid_draws w) +:+ ".png") in
       let evs := [EvWrite audio_file (FAudio aud);
                   EvWrite tmp (FImage W H);
                   EvWrite out (FVideo W H (clip_duration_of dur aud))] in
       trace w' = trace w ++ evs
                    ++ (if unlink_ok E tmp then [EvUnlink tmp] else [])
       /\ disk w' = replay (evs ++ (if unlink_ok E tmp then [EvUnlink tmp]
                                    else [])) (disk w).
Proof.
  unfold GenerateVideosLocal.build_video. intros Hb.
  apply bind_ok_inv in Hb as (audio_file & w1 & Haf & Hb).
  apply lift_ok_inv in Haf as [Haf ->].
  apply bind_ok_inv in Hb as ([] & w2 & Hcv & Hb).
  apply create_voice_ok_inv in Hcv as (aud & Htts & ->).
  apply bind_ok_inv in Hb as (audio & w3 & Haud & Hb).
  apply AudioFileClip_ok_inv in Haud as (-> & aud' & Hlook & ->).
  simpl in Hlook. rewrite lookup_insert_eq in Hlook. injection Hlook as <-.
  apply bind_ok_inv in Hb as (bg & w4 & Hbg & Hb).
  apply (readonly_step _ _ _ _ (local_background_readonly _ _ _)) in Hbg
    as ->.
  apply bind_ok_inv in Hb as ([txt tmp] & w5 & Hcap & Hb).
  apply local_caption_ok_inv in Hcap as (Htmp & Hdur & Htr5 & Hd5).
  simpl in Htmp, Htr5, Hd5.
  apply bind_ok_inv in Hb as ([] & w6 & Hwr & Hb).
  apply write_videofile_ok_inv in Hwr as (d & Hd & ->).
  simpl in Hd. injection Hd as <-.
  apply bind_ok_inv in Hb as ([] & w7 & Hcl & Hb).
  rewrite audio_close_swallowed in Hcl. injection Hcl as <-.
  rewrite unlink_swallowed in Hb. injection Hb as <-.
  exists audio_file, aud. split; [done|]. split; [done|].
  simpl. rewrite lookup_insert. subst tmp.
  set (tmp := path_join _ _) in *.
  assert (bool_decide
            (is_Some (if decide (out = tmp)
                      then Some (FVideo W H (clip_duration_of dur aud))
                      else disk w5 !! tmp)) = true) as ->.
  { apply bool_decide_eq_true_2. case_decide; [eauto|].
    rewrite Hd5, lookup_insert_eq. eauto. }
  simpl. destruct (unlink_ok E tmp); simpl; rewrite Htr5, Hd5;
    by rewrite <- ?app_assoc.
Qed.

(** ** Decimal numerals and the output names *)

Lemma pretty_N_go_no_underscore x s :
  underscore ∉ chars s -> underscore ∉ chars (pretty_N_go x s).
Proof.
  revert s. induction (N.lt_wf_0 x) as [x _ IH]; intros s Hs.
  assert (x = 0 \/ 0 < x)%N as [->|Hx] by lia.
  - by rewrite pretty_N_go_0.
  - rewrite pretty_N_go_step by done. apply IH.
    { by apply N.div_lt. }
    unfold chars. simpl. apply not_elem_of_cons. split; [|done].
    unfold pretty_N_char, underscore. by repeat case_match.
Qed.

Lemma pretty_Z_no_underscore (z : Z) : underscore ∉ chars (pretty z).
Proof.
  assert (forall n : N, underscore ∉ chars (pretty n)) as HN.
  { intros n. unfold pretty, pretty_N. case_decide.
    - unfold chars, underscore. simpl.
      apply not_elem_of_cons. split; [done|apply not_elem_of_nil].
    - apply pretty_N_go_no_underscore. unfold chars. simpl.
      apply not_elem_of_nil. }
  unfold pretty, pretty_Z. destruct z as [|p|p].
  - unfold chars, underscore. simpl.
    apply not_elem_of_cons. split; [done|apply not_elem_of_nil].
  - apply HN.
  - rewrite chars_app. apply not_elem_of_app. split; [|apply HN].
    unfold chars, underscore. simpl.
    apply not_elem_of_cons. split; [done|apply not_elem_of_nil].
Qed.

Lemma chars_inj (a b : string) : chars a = chars b -> a = b.
Proof.
  unfold chars. intros Hab.
  rewrite <- (string_of_list_ascii_of_string a),
    <- (string_of_list_ascii_of_string b). by rewrite Hab.
Qed.

(** Two texts cut at their first separator agree piecewise. *)
Lemma split_at_first {A} (c : A) (a b r r' : list A) :
  c ∉ a -> c ∉ b -> a ++ c :: r = b ++ c :: r' -> a = b /\ r = r'.
Proof.
  revert b. induction a as [|x a IH]; intros [|y b] Ha Hb Heq; simpl in *.
  - by injection Heq.
  - injection Heq as <- _. by apply not_elem_of_cons in Hb as [? _].
  - injection Heq as -> _. by apply not_elem_of_cons in Ha as [? _].
  - injection Heq as -> Heq.
    apply not_elem_of_cons in Ha as [_ Ha].
    apply not_elem_of_cons in Hb as [_ Hb].
    destruct (IH b Ha Hb Heq) as [-> ->]. done.
Qed.

Lemma video_name_inj ts ts' i j :
  video_name ts i = video_name ts' j -> ts = ts' /\ i = j.
Proof.
  unfold video_name. intros Heq.
  apply (inj (String.app "tech_tip_")) in Heq.
  apply (f_equal chars) in Heq.
  rewrite !chars_app in Heq.
  change (chars "_") with [underscore] in Heq. simpl in Heq.
  apply split_at_first in Heq as [Hts Hidx];
    [|apply pretty_Z_no_underscore..].
  apply app_inv_tail in Hidx.
  apply chars_inj, (inj pretty) in Hts.
  apply chars_inj, (inj pretty) in Hidx.
  split; [done|lia].
Qed.

(** ** The disk after a run of per-tip events *)

Lemma replay_cons e evs d : replay (e :: evs) d = replay evs (apply_event d e).
Proof. done. Qed.

(** Per-tip events leave a file whose name ends in [n] as it was. *)
Lemma replay_manifest_untouched p evs d :
  last_char p = Some "n"%char -> Forall tip_event evs ->
  replay evs d !! p = d !! p.
Proof.
  intros Hp Hevs. revert d.
  induction Hevs as [|e evs He _ IH]; intros d; [done|].
  rewrite replay_cons, IH.
  destruct e as [q f|q| |]; simpl in *; try done.
  - rewrite lookup_insert_ne; [done|]. intros ->.
    destruct f; congruence.
  - rewrite lookup_delete_ne; [done|]. intros ->. congruence.
Qed.

Lemma tip_event_no_manifest f : ~ tip_event (EvWrite manifest_path f).
Proof. destruct f; simpl; try done; by vm_compute. Qed.

(** Per-tip events never remove a file whose name ends in [4]. *)
Lemma replay_video_kept p evs d :
  last_char p = Some "4"%char -> Forall tip_event evs ->
  is_Some (d !! p) -> is_Some (replay evs d !! p).
Proof.
  intros Hp Hevs. revert d.
  induction Hevs as [|e evs He _ IH]; intros d Hd; [done|].
  rewrite replay_cons. apply IH.
  destruct e as [q f|q| |]; simpl in *; try done.
  - rewrite lookup_insert. case_decide; [eauto|done].
  - rewrite lookup_delete_ne; [done|]. intros ->. congruence.
Qed.

Lemma replay_video_written p wd ht dur evs d :
  Forall tip_event evs -> In (EvWrite p (FVideo wd ht dur)) evs ->
  is_Some (replay evs d !! p).
Proof.
  intros Hevs. revert d.
  induction Hevs as [|e evs He Hevs IH]; intros d Hin; [done|].
  rewrite replay_cons. destruct Hin as [->|Hin]; [|by apply IH].
  simpl in He. apply replay_video_kept; [done..|].
  simpl. rewrite lookup_insert_eq. eauto.
Qed.

(** ** The loop over the tips *)

Lemma time_now_ok_inv E w ts w' :
  time_now E w = (Ok ts, w') ->
  ts = time_at E (clock_reads w) /\ trace w' = trace w /\ disk w' = disk w.
Proof. by intros [= <- <-]. Qed.

Lemma print_ok_inv E msg w w' :
  print E msg w = (Ok tt, w') -> w' = after w (EvPrint msg).
Proof.
  unfold print. destruct (forallb _ msg); [|discriminate].
  by intros [= <-].
Qed.

Lemma sleep_ok_inv secs w w' :
  sleep secs w = (Ok tt, w') -> w' = after w (EvSleep secs).
Proof. by intros [= <-]. Qed.

Lemma remote_build_video_done E tip out dur color stock w w' :
  GenerateVideos.build_video E tip out dur color stock w = (Ok tt, w') ->
  build_done E tip out dur w w'.
Proof.
  intros Hb. apply remote_build_video_ok in Hb as (af & aud & _ & Htts & ->).
  exists aud, [EvWrite af (FAudio aud);
               EvWrite out (FVideo W H (clip_duration_of dur aud))].
  split; [done|]. split; [simpl; by rewrite <- app_assoc|].
  simpl. auto.
Qed.

Lemma local_build_video_done E tip out dur color stock w w' :
  GenerateVideosLocal.build_video E tip out dur color stock w = (Ok tt, w') ->
  build_done E tip out dur w w'.
Proof.
  intros Hb.
  apply local_build_video_ok in Hb as (af & aud & _ & Htts & Htr & _).
  exists aud. eexists. split; [done|]. split; [exact Htr|].
  apply in_or_app. left. simpl. auto.
Qed.

Lemma loop_done_nil E i acc w : loop_done E i [] acc acc w w.
Proof.
  exists [], []. rewrite !app_nil_r. repeat split; done.
Qed.

Lemma loop_done_cons E i tip tips acc res ts w w1 w2 w3 w4 w' :
  trace w1 = trace w ->
  w2 = after w1 (EvPrint (py "Generating: " ++ tip)) ->
  build_done E tip (path_join OUT_DIR (video_name ts i)) None w2 w3 ->
  w4 = after w3 (EvSleep 1) ->
  loop_done E (S i) tips
    (acc ++ [(tip, path_join OUT_DIR (video_name ts i))]) res w4 w' ->
  loop_done E i (tip :: tips) acc res w w'.
Proof.
  intros Ht1 -> (aud & evs & Htts & Ht3 & Hin) ->
    (new & evs' & -> & Hfst & Ht' & Hnew).
  exists ((tip, path_join OUT_DIR (video_name ts i)) :: new).
  exists ([EvPrint (py "Generating: " ++ tip)] ++ evs ++ [EvSleep 1] ++ evs').
  split; [by rewrite <- app_assoc|].
  split; [simpl; by rewrite Hfst|].
  split.
  { rewrite Ht'. simpl. rewrite Ht3. simpl. rewrite Ht1.
    by rewrite <- !app_assoc. }
  intros [|k] entry Hk; simpl in Hk.
  - injection Hk as <-. exists ts, aud. simpl.
    rewrite Nat.add_0_r. split; [done|]. split; [done|].
    rewrite !in_app_iff. auto.
  - destruct (Hnew k entry Hk) as (ts' & aud' & Hname & Htts' & Hin').
    exists ts', aud'. rewrite <- Nat.add_succ_comm. split; [done|].
    split; [done|].
    rewrite !in_app_iff. auto.
Qed.

Lemma remote_main_loop_ok E tips : forall i stock acc w res w',
  GenerateVideos.main_loop E i tips stock acc w = (Ok res, w') ->
  loop_done E i tips acc res w w'.
Proof.
  induction tips as [|tip tips IH]; intros i stock acc w res w'; simpl.
  - intros [= <- <-]. apply loop_done_nil.
  - intros Hb.
    apply bind_ok_inv in Hb as (ts & w1 & Hts & Hb).
    apply time_now_ok_inv in Hts as (_ & Ht1 & _).
    apply bind_ok_inv in Hb as (st & w1' & Hst & Hb).
    apply lift_ok_inv in Hst as [_ ->].
    apply bind_ok_inv in Hb as ([] & w2 & Hpr & Hb).
    apply print_ok_inv in Hpr.
    apply bind_ok_inv in Hb as ([] & w3 & Hbv & Hb).
    apply remote_build_video_done in Hbv.
    apply bind_ok_inv in Hb as ([] & w4 & Hsl & Hb).
    apply sleep_ok_inv in Hsl.
    apply IH in Hb. by eapply loop_done_cons.
Qed.

Lemma local_main_loop_ok E tips : forall i stock acc w res w',
  GenerateVideosLocal.main_loop E i tips stock acc w = (Ok res, w') ->
  loop_done E i tips acc res w w'.
Proof.
  induction tips as [|tip tips IH]; intros i stock acc w res w'; simpl.
  - intros [= <- <-]. apply loop_done_nil.
  - intros Hb.
    apply bind_ok_inv in Hb as (ts & w1 & Hts & Hb).
    apply time_now_ok_inv in Hts as (_ & Ht1 & _).
    apply bind_ok_inv in Hb as (st & w1' & Hst & Hb).
    apply lift_ok_inv in Hst as [_ ->].
    apply bind_ok_inv in Hb as ([] & w2 & Hpr & Hb).
    apply print_ok_inv in Hpr.
    apply bind_ok_inv in Hb as ([] & w3 & Hbv & Hb).
    apply local_build_video_done in Hbv.
    apply bind_ok_inv in Hb as ([] & w4 & Hsl & Hb).
    apply sleep_ok_inv in Hsl.
    apply IH in Hb. by eapply loop_done_cons.
Qed.

(** The files a finished loop lists are pairwise distinct. *)
Lemma loop_done_files_distinct E i tips res w w' :
  loop_done E i tips [] res w w' -> NoDup (map snd res).
Proof.
  intros (new & evs & -> & _ & _ & Hnew). simpl.
  change (map snd new) with (snd <$> new).
  apply NoDup_alt. intros a b x Ha Hb.
  rewrite list_lookup_fmap in Ha, Hb.
  apply fmap_Some in Ha as (ea & Hea & Ha).
  apply fmap_Some in Hb as (eb & Heb & Hb).
  destruct (Hnew a ea Hea) as (ts & _ & Hna & _).
  destruct (Hnew b eb Heb) as (ts' & _ & Hnb & _).
  rewrite Hb, Hna, Hnb in Ha. unfold path_join in Ha.
  apply (inj (String.app OUT_DIR)), (inj (String.app "/")) in Ha.
  apply video_name_inj in Ha as [_ Ha]. lia.
Qed.

(** C10.  Two tips of one batch never get the same output name: names
    built for different loop indices differ, whatever the two clock
    readings are, and so do the paths made of them; hence the files listed
    by a finished loop of either script are pairwise distinct. *)
Theorem output_names_distinct :
  (forall (ts_i ts_j : Z) (i j : nat),
     i <> j ->
     video_name ts_i i <> video_name ts_j j
     /\ path_join OUT_DIR (video_name ts_i i)
        <> path_join OUT_DIR (video_name ts_j j))
  /\ (forall E tips stock w res w',
        GenerateVideos.main_loop E 0 tips stock [] w = (Ok res, w')
        \/ GenerateVideosLocal.main_loop E 0 tips stock [] w = (Ok res, w') ->
        NoDup (map snd res)).
Proof.
  split.
  - intros ts_i ts_j i j Hij. split.
    + intros Heq. by apply video_name_inj in Heq as [_ ?].
    + unfold path_join. intros Heq.
      apply (inj (String.app OUT_DIR)), (inj (String.app "/")) in Heq.
      by apply video_name_inj in Heq as [_ ?].
  - intros E tips stock w res w' [Hl|Hl].
    + apply remote_main_loop_ok in Hl. by eapply loop_done_files_distinct.
    + apply local_main_loop_ok in Hl. by eapply loop_done_files_distinct.
Qed.

Lemma output_names_distinct_witness :
  video_name 1700000000 0 <> video_name 1700000000 1
  /\ (GenerateVideos.main_loop env_frozen_clock 0 [py "Tip A."; py "Tip B."]
        [] [] (World ∅ [] 0 0)).1
     = Ok [(py "Tip A.", "outputs/tech_tip_1700000000_1.mp4");
           (py "Tip B.", "outputs/tech_tip_1700000000_2.mp4")]
  /\ NoDup ["outputs/tech_tip_1700000000_1.mp4";
            "outputs/tech_tip_1700000000_2.mp4"].
Proof.
  destruct output_names_distinct as [Hnames Hloop].
  split; [apply (Hnames 1700000000 1700000000 0%nat 1%nat); lia|].
  split; [by vm_compute|].
  apply (Hloop env_frozen_clock [py "Tip A."; py "Tip B."] [] (World ∅ [] 0 0)
           [(py "Tip A.", "outputs/tech_tip_1700000000_1.mp4");
            (py "Tip B.", "outputs/tech_tip_1700000000_2.mp4")]
           (GenerateVideos.main_loop env_frozen_clock 0
              [py "Tip A."; py "Tip B."] [] [] (World ∅ [] 0 0)).2).
  left. by vm_compute.
Defined.

(** ** The batch and its manifest *)

Lemma manifest_path_last_char : last_char manifest_path = Some "n"%char.
Proof. reflexivity. Qed.

Lemma no_manifest_in_tip_events evs f :
  Forall tip_event evs -> ~ In (EvWrite manifest_path f) evs.
Proof.
  intros Hevs Hin. rewrite List.Forall_forall in Hevs.
  by apply (tip_event_no_manifest f), Hevs.
Qed.

(** A script that raised after per-tip events only. *)
Lemma raised_contract (w w' : world) e evs :
  trace w' = trace w ++ evs -> disk w' = replay evs (disk w) ->
  Forall tip_event evs ->
  exit_status (Raise e) <> 0
  /\ (forall f, ~ In (EvWrite manifest_path f) evs)
  /\ disk w' !! manifest_path = disk w !! manifest_path
  /\ (forall p wd ht d,
        In (EvWrite p (FVideo wd ht d)) evs -> is_Some (disk w' !! p)).
Proof.
  intros Ht Hd Hevs. split; [done|].
  split; [intros f; by apply no_manifest_in_tip_events|].
  split.
  - rewrite Hd. by apply replay_manifest_untouched.
  - intros p wd ht d Hin. rewrite Hd. by eapply replay_video_written.
Qed.

(** The last message has ASCII characters only: printing it cannot fail. *)
Lemma print_done_message E w :
  print E done_message w = (Ok tt, after w (EvPrint done_message)).
Proof.
  unfold print.
  assert (forallb (encodable E) done_message = true) as ->; [|done].
  apply forallb_forall. intros c Hc. unfold encodable.
  apply orb_true_iff. left. revert c Hc. apply List.Forall_forall.
  vm_compute. repeat constructor.
Qed.

Section Batch.
Context (E : env) (generated : outcome (list pystr)).
Context (loop : list pystr -> list string -> M (list entry)).
Hypothesis loop_always :
  forall tips stock, always tip_event (loop tips stock).
Hypothesis loop_ok : forall tips stock w res w',
  loop tips stock w = (Ok res, w') -> loop_done E 0 tips [] res w w'.

Lemma main_over_contract :
  batch_contract E (main_over E generated loop) generated.
Proof.
  intros w. unfold main_over, mbind, M_bind, lift, glob_sorted.
  destruct generated as [tips|e] eqn:Hgen; simpl.
  2:{ exists []. rewrite app_nil_r. split; [done|]. split; [done|].
      apply (raised_contract w w e []);
        [by rewrite app_nil_r | done | constructor]. }
  set (stock := merge_sort _ _).
  destruct (loop tips stock w) as [[res|e] w3] eqn:Hloop.
  - pose proof (always_step _ _ _ _ _ (loop_always tips stock) Hloop)
      as (evs & Ht & Hd & Hevs).
    apply loop_ok in Hloop as (new & evs' & -> & Hfst & Ht' & Hnew).
    rewrite Ht in Ht'. apply app_inv_head in Ht'. subst evs'.
    unfold write_file. rewrite print_done_message. simpl.
    exists (evs ++ [EvWrite manifest_path (FManifest new);
                           EvPrint done_message]).
    split; [rewrite Ht; by rewrite <- !app_assoc|].
    split; [rewrite Hd; unfold replay; by rewrite foldl_app|].
    split; [done|]. exists evs, new.
    split; [done|].
    split; [intros f; by apply no_manifest_in_tip_events|].
    split; [by rewrite Hfst|].
    split; [|by rewrite lookup_insert_eq].
    intros entry Hin. apply list_elem_of_In, list_elem_of_lookup in Hin
      as [k Hk].
    destruct (Hnew k entry Hk) as (ts & aud & _ & _ & Hw). eauto.
  - pose proof (always_step _ _ _ _ _ (loop_always tips stock) Hloop)
      as (evs & Ht & Hd & Hevs).
    simpl. exists evs. split; [done|]. split; [done|].
    by apply (raised_contract w w3 e evs).
Qed.

Lemma script_over_cases w :
  script_over E generated loop w = main_over E generated loop w
  \/ exists e, script_over E generated loop w = (Raise e, w).
Proof.
  unfold script_over, mbind, M_bind, mkdir_exist_ok.
  destruct (str_truthy (api_key E)); simpl; [|eauto].
  destruct (disk w !! OUT_DIR); [eauto|].
  destruct (disk w !! ASSETS_DIR); [eauto|]. by left.
Qed.

Lemma script_over_contract :
  batch_contract E (script_over E generated loop) generated.
Proof.
  intros w. destruct (script_over_cases w) as [-> | [e ->]].
  - apply main_over_contract.
  - simpl. exists []. rewrite app_nil_r. split; [done|]. split; [done|].
    apply (raised_contract w w e []);
        [by rewrite app_nil_r | done | constructor].
Qed.
End Batch.

(** ** The clip duration in [build_video] *)

Lemma build_done_trace E tip out dur w w' aud :
  build_done E tip out dur w w' -> tts E tip = Ok aud ->
  In (EvWrite out (FVideo W H (clip_duration_of dur aud))) (trace w').
Proof.
  intros (aud' & evs & Htts & Ht & Hin) Haud.
  rewrite Htts in Haud. injection Haud as ->.
  rewrite Ht. apply in_or_app. by right.
Qed.

(** C2.  Without a duration argument the clip duration is
    [max(8, min(25, a + 0.5))] for the narration length [a]: it is
    [a + 0.5] when that lies between 8 and 25, 8 when it is at most 8, and
    25 otherwise (also for a NaN); so it always lies in [8, 25].  A finished
    build of either script wrote its video with that duration. *)
Theorem computed_clip_duration_clamped (a : spec_float) :
  let x := PFloat (SFadd prec emax a float_half) in
  clip_duration_of None a = py_max (PInt 8) (py_min (PInt 25) x)
  /\ py_le (PInt 8) (clip_duration_of None a) = true
  /\ py_le (clip_duration_of None a) (PInt 25) = true
  /\ (py_lt (PInt 8) x = true -> py_lt x (PInt 25) = true ->
      clip_duration_of None a = x)
  /\ (py_le x (PInt 8) = true -> clip_duration_of None a = PInt 8)
  /\ (py_lt x (PInt 25) = false -> clip_duration_of None a = PInt 25)
  /\ (forall E tip out color stock w w',
        tts E tip = Ok a ->
        GenerateVideos.build_video E tip out None color stock w = (Ok tt, w')
        \/ GenerateVideosLocal.build_video E tip out None color stock w
           = (Ok tt, w') ->
        In (EvWrite out (FVideo W H (clip_duration_of None a))) (trace w')).
Proof.
  intros x. split; [reflexivity|].
  destruct (computed_duration_bounds a) as [H8 H25].
  destruct (computed_duration_cases a) as (Hin & Hlow & Hhigh).
  do 5 (split; [done|]).
  intros E tip out color stock w w' Htts [Hb|Hb].
  - apply remote_build_video_done in Hb. by eapply build_done_trace.
  - apply local_build_video_done in Hb. by eapply build_done_trace.
Qed.

Lemma computed_clip_duration_clamped_witness :
  clip_duration_of None ten_seconds
  = PFloat (S754_finite false 5910974510923776 (-49))
  /\ clip_duration_of None two_seconds = PInt 8
  /\ clip_duration_of None S754_nan = PInt 25
  /\ In (EvWrite "outputs/a.mp4" (FVideo W H (PInt 8)))
       (trace (GenerateVideosLocal.build_video (env_replying [])
                 (py "Tip A.") "outputs/a.mp4" None
                 (18, 18, 18) None empty_world).2).
Proof.
  destruct (computed_clip_duration_clamped ten_seconds)
    as (_ & _ & _ & Hin & _).
  destruct (computed_clip_duration_clamped two_seconds)
    as (_ & _ & _ & _ & Hlow & _ & Hbuild).
  destruct (computed_clip_duration_clamped S754_nan)
    as (_ & _ & _ & _ & _ & Hhigh & _).
  split; [apply Hin; reflexivity|].
  split; [apply Hlow; reflexivity|].
  split; [apply Hhigh; reflexivity|].
  rewrite <- (Hlow eq_refl).
  apply (Hbuild (env_replying []) (py "Tip A.") "outputs/a.mp4"
           (18, 18, 18) None empty_world).
  - reflexivity.
  - right. by vm_compute.
Defined.

(** C9.  The override is tested for truth, not against [None]: a duration
    of [0] (or [0.0]) is ignored and the clip duration is computed from the
    narration as if none was given, so it is not zero; a finished build of
    either script wrote its video with the computed duration. *)
Theorem zero_duration_override_ignored (a : spec_float) :
  clip_duration_of (Some (PInt 0)) a = clip_duration_of None a
  /\ clip_duration_of (Some (PFloat (S754_zero false))) a
     = clip_duration_of None a
  /\ clip_duration_of (Some (PInt 0)) a
     = py_max (PInt 8)
         (py_min (PInt 25) (PFloat (SFadd prec emax a float_half)))
  /\ clip_duration_of (Some (PInt 0)) a <> PInt 0
  /\ (forall d, num_truthy d = true -> clip_duration_of (Some d) a = d)
  /\ (forall E tip out color stock w w',
        tts E tip = Ok a ->
        GenerateVideos.build_video E tip out (Some (PInt 0)) color stock w
        = (Ok tt, w')
        \/ GenerateVideosLocal.build_video E tip out (Some (PInt 0)) color
             stock w = (Ok tt, w') ->
        In (EvWrite out (FVideo W H (computed_duration a))) (trace w')).
Proof.
  split; [reflexivity|]. split; [reflexivity|]. split; [reflexivity|].
  split; [apply computed_duration_not_zero|].
  split; [intros d Hd; simpl; by rewrite Hd|].
  intros E tip out color stock w w' Htts [Hb|Hb].
  - apply remote_build_video_done in Hb.
    by apply (build_done_trace _ _ _ _ _ _ a) in Hb.
  - apply local_build_video_done in Hb.
    by apply (build_done_trace _ _ _ _ _ _ a) in Hb.
Qed.

Lemma zero_duration_override_ignored_witness :
  clip_duration_of (Some (PInt 3)) two_seconds = PInt 3
  /\ In (EvWrite "outputs/a.mp4" (FVideo W H (PInt 8)))
       (trace (GenerateVideos.build_video (env_replying [])
                 (py "Tip A.") "outputs/a.mp4"
                 (Some (PInt 0)) (18, 18, 18) None empty_world).2).
Proof.
  destruct (zero_duration_override_ignored two_seconds)
    as (_ & _ & _ & _ & Hd & Hbuild).
  split; [by apply Hd|].
  apply (Hbuild (env_replying []) (py "Tip A.") "outputs/a.mp4"
           (18, 18, 18) None empty_world).
  - reflexivity.
  - left. by vm_compute.
Defined.

(** ** The background track *)

Lemma str_truthy_some p : p <> EmptyString -> str_truthy (Some p) = true.
Proof.
  intros Hp. unfold str_truthy. by apply negb_true_iff, String.eqb_neq.
Qed.

(** Cutting a clip from its start to its own end does not raise. *)
Lemma subclip_from_start native c :
  c_duration c = Some native -> py_le (PInt 0) native = true ->
  exists d, subclip (PInt 0) native c = Ok (set_duration d c).
Proof.
  intros Hdur Hpos. unfold subclip.
  change (py_lt (PInt 0) (PInt 0)) with false. simpl.
  rewrite Hdur, (py_le_not_lt _ _ Hpos). simpl.
  destruct native as [z|f]; simpl; by eexists.
Qed.

Lemma stock_clip_read p wd ht native w :
  disk w !! p = Some (FVideo wd ht native) ->
  VideoFileClip p w = (Ok (Clip [SrcStock p] wd ht (Some native) None None), w).
Proof.
  intros Hp. unfold VideoFileClip, read_file, mbind, M_bind. by rewrite Hp.
Qed.

Lemma path_exists_some p f w :
  disk w !! p = Some f -> path_exists p w = (Ok true, w).
Proof.
  intros Hp. unfold path_exists. rewrite Hp.
  by rewrite bool_decide_eq_true_2 by eauto.
Qed.

Lemma set_duration_layers d c : c_layers (set_duration d c) = c_layers c.
Proof. done. Qed.

Lemma crop_centered_duration xc2 width ycenter c :
  c_duration (crop_centered xc2 width ycenter c) = c_duration c.
Proof.
  unfold crop_centered.
  destruct (xc2 =? 0), ycenter as [[yc2 height]|]; simpl; try done;
    by destruct (yc2 =? 0).
Qed.

Lemma crop_centered_layers xc2 width ycenter c :
  c_layers (crop_centered xc2 width ycenter c) = c_layers c.
Proof.
  unfold crop_centered.
  destruct (xc2 =? 0), ycenter as [[yc2 height]|]; simpl; try done;
    by destruct (yc2 =? 0).
Qed.

(** The stock branch of both scripts, from the clip just read on: resized
    and possibly cropped to [c], cut to the shorter of the two durations,
    then set to the requested one. *)
Lemma cut_and_stretch native requested c :
  c_duration c = Some native ->
  py_le (PInt 0) native = true ->
  py_lt native requested = true ->
  exists d,
    duration_of c = Ok native
    /\ subclip (PInt 0) (py_min requested native) c = Ok (set_duration d c).
Proof.
  intros Hdur Hpos Hshort.
  assert (py_min requested native = native) as ->
    by (unfold py_min; by rewrite Hshort).
  destruct (subclip_from_start native c Hdur Hpos) as [d Hd].
  exists d. split; [|done]. unfold duration_of. by rewrite Hdur.
Qed.

(** C3.  A readable stock clip shorter than the requested duration gives,
    in both scripts, a background made of that clip whose duration is the
    requested one, and nothing is raised on the way. *)
Theorem short_stock_clip_background (w : world) (p : string) (wd ht : Z)
    (native requested : pynum) (color : Z * Z * Z) :
  p <> EmptyString ->
  disk w !! p = Some (FVideo wd ht native) ->
  ht <> 0 ->
  py_le (PInt 0) native = true ->
  py_lt native requested = true ->
  (exists bg,
     GenerateVideos.background requested color (Some p) w = (Ok bg, w)
     /\ c_duration bg = Some requested
     /\ c_layers bg = [SrcStock p])
  /\ (exists bg,
        GenerateVideosLocal.background requested color (Some p) w = (Ok bg, w)
        /\ c_duration bg = Some requested
        /\ c_layers bg = [SrcStock p]).
Proof.
  intros Hp Hdisk Hht Hpos Hshort.
  set (resized := Clip [SrcStock p] (Z.quot (wd * H) ht) H (Some native)
                    None None).
  assert (resize_height H (Clip [SrcStock p] wd ht (Some native) None None)
          = Ok resized) as Hresize.
  { unfold resize_height. simpl. by destruct (Z.eqb_spec ht 0). }
  split.
  - destruct (cut_and_stretch native requested
                (crop_centered 1 W None resized)) as (d & Hnat & Hcut);
      [by rewrite crop_centered_duration|done..|].
    exists (set_duration requested
              (set_duration d (crop_centered 1 W None resized))).
    split; [|split; [done|
      by rewrite !set_duration_layers, crop_centered_layers]].
    unfold GenerateVideos.background, mbind, M_bind.
    rewrite (str_truthy_some p Hp).
    change (default EmptyString (Some p)) with p.
    rewrite (path_exists_some p _ w Hdisk), (stock_clip_read _ _ _ _ _ Hdisk).
    unfold lift. by rewrite Hresize, Hnat, Hcut.
  - set (cropped := if W <? c_w resized
                    then crop_centered (c_w resized) W
                           (Some (c_h resized, H)) resized
                    else resized).
    destruct (cut_and_stretch native requested cropped) as (d & Hnat & Hcut);
      [|done..|].
    { unfold cropped. destruct (W <? _); [|done].
      by rewrite crop_centered_duration. }
    exists (set_duration requested (set_duration d cropped)).
    split; [|split; [done|]].
    + unfold GenerateVideosLocal.background, try_except_Exception, mbind,
        M_bind.
      rewrite (str_truthy_some p Hp).
      change (default EmptyString (Some p)) with p.
      rewrite (path_exists_some p _ w Hdisk),
        (stock_clip_read _ _ _ _ _ Hdisk).
      unfold lift. rewrite Hresize. fold cropped. by rewrite Hnat, Hcut.
    + rewrite !set_duration_layers. unfold cropped.
      destruct (W <? _); [|done]. by rewrite crop_centered_layers.
Qed.

Lemma short_stock_clip_background_witness :
  let w := world_with_stock (FVideo 1280 720 (PFloat two_seconds)) in
  (exists bg,
     GenerateVideos.background (PInt 8) (18, 18, 18) (Some "assets/a.mp4") w
     = (Ok bg, w)
     /\ c_duration bg = Some (PInt 8)
     /\ c_layers bg = [SrcStock "assets/a.mp4"])
  /\ (exists bg,
        GenerateVideosLocal.background (PInt 8) (18, 18, 18)
          (Some "assets/a.mp4") w = (Ok bg, w)
        /\ c_duration bg = Some (PInt 8)
        /\ c_layers bg = [SrcStock "assets/a.mp4"]).
Proof.
  apply (short_stock_clip_background
           (world_with_stock (FVideo 1280 720 (PFloat two_seconds)))
           "assets/a.mp4" 1280 720 (PFloat two_seconds) (PInt 8)
           (18, 18, 18)).
  - discriminate.
  - reflexivity.
  - discriminate.
  - reflexivity.
  - reflexivity.
Defined.

(** C5, on the code.  When the stock clip exists but cannot be read as a
    video, the second script catches the error and falls back to the solid
    colour for the whole duration; the first script has no handler and
    [build_video] raises. *)
Theorem unreadable_stock_clip (E : env) (w : world) (p : string) (f : file)
    (requested : pynum) (color : Z * Z * Z) :
  p <> EmptyString ->
  disk w !! p = Some f ->
  (forall wd ht d, f <> FVideo wd ht d) ->
  GenerateVideosLocal.background requested color (Some p) w
  = (Ok (ColorClip W H color requested), w)
  /\ GenerateVideos.background requested color (Some p) w = (Raise OSError, w)
  /\ forall tip out dur,
       is_ok (GenerateVideos.build_video E tip out dur color (Some p) w).1
       = false.
Proof.
  intros Hp Hdisk Hf.
  assert (VideoFileClip p w = (Raise OSError, w)) as Hread.
  { unfold VideoFileClip, read_file, mbind, M_bind. rewrite Hdisk.
    destruct f; try done. by destruct (Hf w0 h dur). }
  assert (GenerateVideos.background requested color (Some p) w
          = (Raise OSError, w)) as Hremote.
  { unfold GenerateVideos.background, mbind, M_bind.
    rewrite (str_truthy_some p Hp).
    change (default EmptyString (Some p)) with p.
    by rewrite (path_exists_some p _ w Hdisk), Hread. }
  split; [|split; [exact Hremote|]].
  - unfold GenerateVideosLocal.background, try_except_Exception, mbind,
      M_bind.
    rewrite (str_truthy_some p Hp).
    change (default EmptyString (Some p)) with p.
    by rewrite (path_exists_some p _ w Hdisk), Hread.
  - intros tip out dur.
    destruct (GenerateVideos.build_video E tip out dur color (Some p) w)
      as [[[]|e] w'] eqn:Hb; [|done].
    exfalso. revert Hb. unfold GenerateVideos.build_video. intros Hb.
    apply bind_ok_inv in Hb as (audio_file & w1 & Haf & Hb).
    apply lift_ok_inv in Haf as [Haf ->].
    apply bind_ok_inv in Hb as ([] & w2 & Hcv & Hb).
    apply create_voice_ok_inv in Hcv as (aud & Htts & ->).
    apply bind_ok_inv in Hb as (audio & w3 & Haud & Hb).
    apply AudioFileClip_ok_inv in Haud as (-> & aud' & Hlook & ->).
    apply bind_ok_inv in Hb as (bg & w4 & Hbg & _).
    revert Hbg. unfold GenerateVideos.background, mbind, M_bind.
    rewrite (str_truthy_some p Hp). simpl.
    unfold path_exists. simpl.
    destruct (bool_decide _) eqn:Hex; simpl.
    + unfold VideoFileClip, read_file, mbind, M_bind. simpl.
      rewrite lookup_insert. case_decide as Hsame.
      * discriminate.
      * rewrite Hdisk. destruct f; try done. by destruct (Hf w0 h dur0).
    + apply bool_decide_eq_false_1 in Hex. destruct Hex.
      simpl. rewrite lookup_insert. case_decide; eauto.
Qed.

Lemma unreadable_stock_clip_witness :
  let w := world_with_stock FOther in
  (GenerateVideosLocal.background (PInt 8) (18, 18, 18)
     (Some "assets/a.mp4") w
   = (Ok (ColorClip W H (18, 18, 18) (PInt 8)), w)
   /\ GenerateVideos.background (PInt 8) (18, 18, 18) (Some "assets/a.mp4") w
      = (Raise OSError, w)
   /\ forall tip out dur,
        is_ok (GenerateVideos.build_video (env_replying five_tips) tip out dur
                 (18, 18, 18) (Some "assets/a.mp4") w).1 = false)
  /\ (@GenerateVideos.script ascii_only_db (env_replying five_tips) w).1
     = Raise OSError
  /\ disk (@GenerateVideos.script ascii_only_db (env_replying five_tips) w).2
       !! manifest_path = None
  /\ (@GenerateVideosLocal.script ascii_only_db (env_replying five_tips) w).1
     = Ok tt.
Proof.
  split.
  - apply (unreadable_stock_clip (env_replying five_tips)
             (world_with_stock FOther) "assets/a.mp4" FOther (PInt 8)
             (18, 18, 18)).
    + discriminate.
    + reflexivity.
    + discriminate.
  - split; [by vm_compute|]. split; by vm_compute.
Defined.

(** ** Temporary files *)

Lemma after_disk w e : disk (after w e) = apply_event (disk w) e.
Proof. done. Qed.




(** ** A batch that fails on its third tip *)

Example failed_batch_keeps_videos_and_writes_no_manifest :
  let r := @GenerateVideosLocal.script ascii_only_db env_failing_third
             empty_world in
  r.1 = Raise ServiceError
  /\ exit_status r.1 = 1
  /\ disk r.2 !! manifest_path = None
  /\ disk r.2 !! "outputs/tech_tip_1700000000_1.mp4"
     = Some (FVideo W H (PInt 8))
  /\ disk r.2 !! "outputs/tech_tip_1700000001_2.mp4"
     = Some (FVideo W H (PInt 8))
  /\ disk r.2 !! "outputs/tech_tip_1700000002_3.mp4" = None.
Proof. repeat split; by vm_compute. Qed.

Example finished_batch_writes_manifest_last :
  let r := @GenerateVideos.script ascii_only_db (env_replying five_tips)
             empty_world in
  r.1 = Ok tt
  /\ last (trace r.2) = Some (EvPrint done_message)
  /\ disk r.2 !! manifest_path
     = Some (FManifest
               [(py "Tip A.", "outputs/tech_tip_1700000000_1.mp4");
                (py "Tip B.", "outputs/tech_tip_1700000001_2.mp4");
                (py "Tip C.", "outputs/tech_tip_1700000002_3.mp4");
                (py "Tip D.", "outputs/tech_tip_1700000003_4.mp4");
                (py "Tip E.", "outputs/tech_tip_1700000004_5.mp4")]).
Proof. repeat split; by vm_compute. Qed.

(** ** More on the tip generator *)

Section Trimming.
Context `{UnicodeDb}.

Lemma lstrip_idemp s : lstrip (lstrip s) = lstrip s.
Proof.
  induction s as [|c s IH]; simpl; [done|].
  destruct (isspace c) eqn:Hc; [done|]. simpl. by rewrite Hc.
Qed.

Lemma lstrip_snoc l c :
  isspace c = false -> exists l', lstrip (l ++ [c]) = l' ++ [c].
Proof.
  intros Hc. induction l as [|a l IH]; simpl.
  - rewrite Hc. by exists [].
  - destruct (isspace a); [done|]. by exists (a :: l).
Qed.

Lemma rstrip_idemp s : rstrip (rstrip s) = rstrip s.
Proof. unfold rstrip. by rewrite rev_involutive, lstrip_idemp. Qed.

(** Trimming on the right does not bring white space to the front. *)
Lemma lstrip_rstrip_lstrip s : lstrip (rstrip (lstrip s)) = rstrip (lstrip s).
Proof.
  destruct (lstrip s) as [|c t] eqn:Hs; [done|].
  assert (isspace c = false) as Hc.
  { clear -Hs. induction s as [|a s IH]; simpl in Hs; [done|].
    destruct (isspace a) eqn:Ha; [by apply IH|]. by injection Hs as -> _. }
  unfold rstrip. simpl.
  destruct (lstrip_snoc (rev t) c Hc) as [l' ->].
  rewrite rev_app_distr. simpl. by rewrite Hc.
Qed.

Lemma strip_idemp s : strip (strip s) = strip s.
Proof.
  unfold strip. by rewrite lstrip_rstrip_lstrip, rstrip_idemp.
Qed.


End Trimming.

Section LineForms.
Context `{UnicodeDb}.

Lemma Forall_slice_to {A} (P : A -> Prop) l n :
  Forall P l -> Forall P (slice_to l n).
Proof. intros Hl. unfold slice_to. destruct (n <? 0); by apply Forall_take. Qed.

Lemma split_once_from_cases sep cur s :
  (contains sep s = false /\ split_once_from sep cur s = [rev cur ++ s])
  \/ (exists pre tail,
        contains sep s = true
        /\ split_once_from sep cur s = [rev cur ++ pre; tail]
        /\ s = pre ++ sep :: tail
        /\ contains sep pre = false).
Proof.
  revert cur. unfold contains.
  induction s as [|c s IH]; intros cur; simpl.
  - left. by rewrite app_nil_r.
  - rewrite (N.eqb_sym sep c).
    destruct (N.eqb_spec c sep) as [->|Hne]; simpl.
    + right. exists [], s. by rewrite app_nil_r.
    + destruct (IH (c :: cur)) as [[Hno Hs]|(pre & tail & Hyes & Hs & -> & Hp)].
      * left. split; [done|]. rewrite Hs. simpl. by rewrite <- app_assoc.
      * right. exists (c :: pre), tail. split; [done|].
        split; [rewrite Hs; simpl; by rewrite <- app_assoc|].
        split; [done|]. simpl. rewrite (N.eqb_sym sep c).
        by destruct (N.eqb_spec c sep).
Qed.

(** The accumulator only prefixes the first piece. *)
Lemma split_once_from_two sep cur1 cur2 s :
  exists x tl,
    (split_once_from sep cur1 s = [rev cur1 ++ x]
     /\ split_once_from sep cur2 s = [rev cur2 ++ x])
    \/ (split_once_from sep cur1 s = [rev cur1 ++ x; tl]
        /\ split_once_from sep cur2 s = [rev cur2 ++ x; tl]).
Proof.
  revert cur1 cur2. induction s as [|c s IH]; intros cur1 cur2; simpl.
  - exists [], []. left. by rewrite !app_nil_r.
  - destruct (N.eqb_spec c sep) as [->|Hne].
    + exists [], s. right. by rewrite !app_nil_r.
    + destruct (IH (c :: cur1) (c :: cur2)) as (x & tl & [[H1 H2]|[H1 H2]]);
        exists (c :: x), tl; [left|right]; rewrite H1, H2; simpl;
        by rewrite <- !app_assoc.
Qed.

Lemma isdigit_not_paren (d : N) : isdigit d = true -> d <> 41%N.
Proof. unfold isdigit. intros Hd ->. simpl in Hd. discriminate. Qed.

(** The first script's line test in closed form, off the lone digits. *)
Lemma remote_strip_numbering_spec line :
  line <> [] -> lone_digit line = false ->
  GenerateVideos.strip_numbering line = Ok (remote_entry line).
Proof.
  intros Hne Hlone.
  destruct line as [|d [|m rest]]; [done| |].
  - simpl in Hlone. unfold GenerateVideos.strip_numbering. simpl.
    by rewrite Hlone.
  - clear Hne Hlone. unfold remote_entry.
    destruct (isdigit d) eqn:Hd; simpl.
    2:{ unfold GenerateVideos.strip_numbering. simpl. by rewrite Hd. }
    destruct (N.eqb_spec m 46) as [->|Hdot].
    { by apply remote_strip_numbering_dot. }
    apply N.eqb_neq in Hdot.
    unfold GenerateVideos.strip_numbering. simpl. rewrite Hd. simpl.
    rewrite Hdot. simpl.
    destruct (N.eqb_spec m 41) as [->|Hpar]; simpl; [|done].
    assert (contains 46 (d :: 41%N :: rest) = contains 46 rest) as ->.
    { unfold contains. cbn [existsb].
      destruct (N.eqb_spec 46 d) as [<-|_]; [|done].
      by apply isdigit_not_dot in Hd. }
    unfold split_once. simpl.
    destruct (N.eqb_spec d 46) as [->|_];
      [by apply isdigit_not_dot in Hd|]. simpl.
    destruct (split_once_from_two 46 [] [41%N; d] rest)
      as (x & tl & [[Hs1 Hs2]|[Hs1 Hs2]]).
    + destruct (split_once_from_cases 46 [] rest)
        as [[Hno _]|(pre & tail & _ & Hs & _ & _)]; [|congruence].
      rewrite Hno, Hs1. reflexivity.
    + destruct (split_once_from_cases 46 [] rest)
        as [[_ Hs]|(pre & tail & Hyes & _)]; [congruence|].
      rewrite Hyes, Hs1, Hs2. reflexivity.
Qed.

Lemma remote_parse_lines_spec todo acc :
  Forall (fun l => lone_digit l = false)
    (List.filter (fun l => negb (bool_decide (l = []))) (map strip todo)) ->
  GenerateVideos.parse_lines todo acc
  = Ok (acc ++ map remote_entry
                 (List.filter (fun l => negb (bool_decide (l = [])))
                    (map strip todo))).
Proof.
  revert acc. induction todo as [|line todo IH]; intros acc Hl; simpl.
  - by rewrite app_nil_r.
  - simpl in Hl. destruct (strip line) as [|c s] eqn:Hs; simpl in *;
      [by apply IH|].
    apply Forall_cons in Hl as [Hc Hl].
    rewrite remote_strip_numbering_spec by done. simpl.
    rewrite IH by done. by rewrite <- app_assoc.
Qed.

(** Off the touchy lines both scripts make the same entry. *)
Lemma remote_entry_without_marker line :
  touchy_line line = false -> remote_entry line = without_marker line.
Proof.
  destruct line as [|d [|m rest]]; [done..|]. simpl.
  destruct (isdigit d); simpl; [|done].
  intros ->. by destruct (m =? 46)%N.
Qed.

Lemma touchy_not_lone line :
  touchy_line line = false -> lone_digit line = false.
Proof. by destruct line as [|d [|m rest]]. Qed.

(** Every entry of either script is a trimmed text. *)
Lemma without_marker_trimmed line :
  strip line = line -> strip (without_marker line) = without_marker line.
Proof.
  intros Hl. destruct line as [|d [|m rest]]; [done..|]. simpl.
  destruct (_ && _); [apply strip_idemp|done].
Qed.

Lemma remote_strip_numbering_trimmed line x :
  strip line = line -> GenerateVideos.strip_numbering line = Ok x ->
  strip x = x.
Proof.
  intros Hl. unfold GenerateVideos.strip_numbering, index, mret, outcome_ret.
  destruct line as [|c0 [|c1 rest]]; simpl; [discriminate| |].
  - destruct (isdigit c0); simpl; [discriminate|]. by intros [= <-].
  - destruct (isdigit c0); simpl; [|by intros [= <-]].
    destruct (_ || _); [|by intros [= <-]].
    destruct (contains _ _); [|by intros [= <-]].
    destruct (_ !! 1%nat); simpl; [|discriminate].
    intros [= <-]. apply strip_idemp.
Qed.

Lemma remote_parse_lines_trimmed todo acc lines :
  Forall (fun t => strip t = t) acc ->
  GenerateVideos.parse_lines todo acc = Ok lines ->
  Forall (fun t => strip t = t) lines.
Proof.
  revert acc. induction todo as [|line todo IH]; intros acc Hacc; simpl.
  - by intros [= <-].
  - destruct (strip line) as [|c s] eqn:Hs; [by apply IH|].
    destruct (GenerateVideos.strip_numbering (c :: s)) as [x|e] eqn:Hx;
      simpl; [|discriminate].
    apply IH. apply Forall_app. split; [done|].
    apply Forall_singleton.
    eapply remote_strip_numbering_trimmed; [|exact Hx].
    rewrite <- Hs. apply strip_idemp.
Qed.

Lemma nonblank_lines_trimmed text :
  Forall (fun t => strip t = t) (nonblank_lines text).
Proof.
  unfold nonblank_lines. apply List.Forall_forall. intros l Hl.
  apply filter_In in Hl as [Hl _]. apply in_map_iff in Hl as (x & <- & _).
  apply strip_idemp.
Qed.

Lemma keep_sentences_trimmed sentences :
  Forall (fun t => strip t = t) (keep_sentences sentences).
Proof.
  unfold keep_sentences. apply List.Forall_forall. intros l Hl.
  apply in_map_iff in Hl as (x & <- & _). apply strip_idemp.
Qed.
End LineForms.

Section BlankReply.
Context `{UnicodeDb}.








End BlankReply.

Lemma split_once_at_first sep pre tail :
  contains sep pre = false -> split_once sep (pre ++ sep :: tail) = [pre; tail].
Proof.
  intros Hp. unfold split_once.
  assert (forall cur, split_once_from sep cur (pre ++ sep :: tail)
                      = [rev cur ++ pre; tail]) as Hgen; [|apply (Hgen [])].
  induction pre as [|c pre IH]; intros cur; simpl.
  - rewrite N.eqb_refl. by rewrite app_nil_r.
  - unfold contains in Hp. simpl in Hp.
    apply orb_false_iff in Hp as [Hc Hp].
    rewrite N.eqb_sym, Hc. rewrite IH by done. simpl.
    by rewrite <- app_assoc.
Qed.

(** X1.  In [generate_videos.py] a line numbered with a digit and [')'] is cut
    at its first ['.'], wherever it is: the text before that dot is lost.
    Without any ['.'] the line is kept whole, marker included. *)
Theorem remote_paren_marker_cuts_at_first_dot `{UnicodeDb} (d : N)
    (rest : pystr) :
  isdigit d = true ->
  (contains 46%N rest = false ->
   GenerateVideos.strip_numbering (d :: 41%N :: rest)
   = Ok (d :: 41%N :: rest))
  /\ (forall pre tail,
        rest = pre ++ 46%N :: tail -> contains 46%N pre = false ->
        GenerateVideos.strip_numbering (d :: 41%N :: rest) = Ok (strip tail)).
Proof.
  intros Hd.
  assert (GenerateVideos.strip_numbering (d :: 41%N :: rest)
          = Ok (remote_entry (d :: 41%N :: rest))) as ->
    by (by apply remote_strip_numbering_spec).
  unfold remote_entry. rewrite Hd. simpl. split.
  - intros Hno.
    destruct (split_once_from_cases 46 [] rest)
      as [[_ Hs]|(pre & tail & Hyes & _)]; [|congruence].
    unfold split_once. by rewrite Hs.
  - intros pre tail -> Hp. by rewrite split_once_at_first.
Qed.

Lemma remote_paren_marker_cuts_at_first_dot_witness :
  @GenerateVideos.strip_numbering ascii_only_db
    (py "1) Lock your screen. Always.")
  = Ok (py "Always.")
  /\ @GenerateVideos.strip_numbering ascii_only_db (py "1) Lock your screen")
     = Ok (py "1) Lock your screen").
Proof.
  destruct (@remote_paren_marker_cuts_at_first_dot ascii_only_db 49%N
              (py " Lock your screen. Always.")) as [_ Hcut]; [reflexivity|].
  destruct (@remote_paren_marker_cuts_at_first_dot ascii_only_db 49%N
              (py " Lock your screen")) as [Hkeep _]; [reflexivity|].
  split.
  - apply (Hcut (py " Lock your screen") (py " Always.")); reflexivity.
  - apply Hkeep. reflexivity.
Defined.

(** X2.  The line path of [generate_videos.py] in closed form: when no line of
    the reply is a lone digit and there are at least [count] non-blank
    lines, the result is the first [count] of them (Python's slice for a
    negative [count]), each turned into its entry. *)
Theorem remote_tips_from_lines `{UnicodeDb} (text : pystr) (count : Z) :
  Forall (fun l => lone_digit l = false) (nonblank_lines text) ->
  Z.of_nat (length (nonblank_lines text)) >= count ->
  GenerateVideos.tips_of_text text count
  = Ok (slice_to (map remote_entry (nonblank_lines text)) count).
Proof.
  intros Hlone Hlen. unfold GenerateVideos.tips_of_text.
  unfold nonblank_lines in Hlone.
  rewrite remote_parse_lines_spec by done. simpl.
  fold (nonblank_lines text). unfold len_lt. rewrite length_map.
  destruct (_ <? count) eqn:Hlt; [apply Z.ltb_lt in Hlt; lia|done].
Qed.

Lemma remote_tips_from_lines_witness :
  @GenerateVideos.tips_of_text ascii_only_db three_numbered_lines 3
  = Ok [py "Use two monitors."; py "Always."; py "10. Restart weekly."].
Proof.
  rewrite (@remote_tips_from_lines ascii_only_db three_numbered_lines 3).
  - reflexivity.
  - vm_compute. repeat constructor.
  - by vm_compute.
Defined.

(** X3.  The two scripts return the same tips, for every count, on every reply
    none of whose trimmed lines is a lone digit or starts with a digit and
    [')']. *)
Theorem scripts_agree_off_touchy_lines `{UnicodeDb} (text : pystr)
    (count : Z) :
  Forall (fun l => touchy_line l = false) (nonblank_lines text) ->
  GenerateVideos.tips_of_text text count
  = GenerateVideosLocal.tips_of_text text count.
Proof.
  intros Hok. unfold GenerateVideos.tips_of_text,
    GenerateVideosLocal.tips_of_text.
  rewrite local_parse_lines_spec.
  rewrite remote_parse_lines_spec.
  2:{ fold (nonblank_lines text). eapply Forall_impl; [exact Hok|].
      intros l. apply touchy_not_lone. }
  fold (nonblank_lines text).
  assert (map remote_entry (nonblank_lines text)
          = map without_marker (nonblank_lines text)) as ->; [|done].
  apply map_ext_in. intros l Hl. apply remote_entry_without_marker.
  rewrite List.Forall_forall in Hok. by apply Hok.
Qed.

Lemma scripts_agree_off_touchy_lines_witness :
  @GenerateVideos.tips_of_text ascii_only_db five_tips 5
  = @GenerateVideosLocal.tips_of_text ascii_only_db five_tips 5.
Proof.
  apply (@scripts_agree_off_touchy_lines ascii_only_db five_tips 5).
  vm_compute. repeat constructor.
Defined.

(** X4.  No returned tip starts or ends with white space, in either script and
    on either path (lines or sentences): trimming it again changes
    nothing. *)
Theorem tips_are_trimmed `{UnicodeDb} (text : pystr) (count : Z)
    (tips : list pystr) :
  GenerateVideos.tips_of_text text count = Ok tips
  \/ GenerateVideosLocal.tips_of_text text count = Ok tips ->
  Forall (fun t => strip t = t) tips.
Proof.
  assert (forall lines,
            Forall (fun t => strip t = t) lines ->
            Forall (fun t => strip t = t)
              (slice_to (if len_lt lines count
                         then fallback_sentences text count else lines)
                 count)) as Hout.
  { intros lines Hl. apply Forall_slice_to.
    destruct (len_lt lines count); [|done].
    unfold fallback_sentences. apply Forall_slice_to, keep_sentences_trimmed. }
  intros [Ht|Ht].
  - unfold GenerateVideos.tips_of_text in Ht.
    destruct (GenerateVideos.parse_lines _ _) as [lines|e] eqn:Hp;
      simpl in Ht; [|discriminate].
    injection Ht as <-. apply Hout.
    eapply remote_parse_lines_trimmed; [|exact Hp]. constructor.
  - unfold GenerateVideosLocal.tips_of_text in Ht.
    rewrite local_parse_lines_spec in Ht. simpl in Ht.
    injection Ht as <-. apply Hout.
    fold (nonblank_lines text). apply List.Forall_forall.
    intros t Hin. apply in_map_iff in Hin as (l & <- & Hl).
    apply without_marker_trimmed.
    pose proof (nonblank_lines_trimmed text) as Htr.
    rewrite List.Forall_forall in Htr. by apply Htr.
Qed.

Lemma tips_are_trimmed_witness :
  Forall (fun t => strip t = t)
    [py "Use two monitors."; py "Always."; py "10. Restart weekly."].
Proof.
  apply (@tips_are_trimmed ascii_only_db three_numbered_lines 3).
  left. by vm_compute.
Defined.

(** ** Where the narration goes *)

Lemma pretty_N_go_numeral x s :
  Forall (fun a => numeral_char a = true) (chars s) ->
  Forall (fun a => numeral_char a = true) (chars (pretty_N_go x s)).
Proof.
  revert s. induction (N.lt_wf_0 x) as [x _ IH]; intros s Hs.
  assert (x = 0 \/ 0 < x)%N as [->|Hx] by lia.
  - by rewrite pretty_N_go_0.
  - rewrite pretty_N_go_step by done. apply IH.
    { by apply N.div_lt. }
    unfold chars. simpl. apply Forall_cons. split; [|done].
    unfold pretty_N_char. by repeat case_match.
Qed.

Lemma pretty_Z_numeral (z : Z) :
  Forall (fun a => numeral_char a = true) (chars (pretty z)).
Proof.
  assert (forall n : N,
            Forall (fun a => numeral_char a = true) (chars (pretty n))) as HN.
  { intros n. unfold pretty, pretty_N. case_decide.
    - by repeat constructor.
    - apply pretty_N_go_numeral. constructor. }
  unfold pretty, pretty_Z. destruct z as [|p|p].
  - by repeat constructor.
  - apply HN.
  - rewrite chars_app. apply Forall_app. split; [|apply HN].
    by repeat constructor.
Qed.

Lemma until_char_at_first c l r :
  Forall (fun a => Ascii.eqb a c = false) l ->
  until_char c (l ++ c :: r) = (l, Some r).
Proof.
  induction 1 as [|a l Ha _ IH]; simpl.
  - by rewrite Ascii.eqb_refl.
  - by rewrite Ha, IH.
Qed.

Lemma of_chars_chars s : of_chars (chars s) = s.
Proof. apply string_of_list_ascii_of_string. Qed.

Lemma chars_of_chars l : chars (of_chars l) = l.
Proof. apply list_ascii_of_string_of_list_ascii. Qed.

Lemma video_name_stem ts i : video_name ts i = video_stem ts i +:+ ".mp4".
Proof.
  unfold video_name, video_stem.
  apply chars_inj. rewrite !chars_app. by rewrite <- !app_assoc.
Qed.

Lemma video_stem_clean (c : ascii) ts i :
  numeral_char c = false -> Ascii.eqb "_" c = false ->
  Forall (fun a => Ascii.eqb a c = false) (chars "tech_tip_") ->
  Forall (fun a => Ascii.eqb a c = false) (chars (video_stem ts i)).
Proof.
  intros Hnum Hund Hpre.
  assert (forall z : Z,
            Forall (fun a => Ascii.eqb a c = false) (chars (pretty z)))
    as Hz.
  { intros z. eapply Forall_impl; [apply pretty_Z_numeral|].
    intros a Ha. simpl in Ha. destruct (Ascii.eqb_spec a c) as [->|]; [|done].
    congruence. }
  unfold video_stem. rewrite !chars_app.
  repeat (apply Forall_app; split); try done; try apply Hz.
  by repeat constructor.
Qed.

Lemma with_suffix_video_path (ts : Z) (i : nat) :
  with_suffix (path_join OUT_DIR (video_name ts i)) ".mp3"
  = Ok (path_join OUT_DIR (video_stem ts i +:+ ".mp3")).
Proof.
  rewrite video_name_stem. unfold with_suffix, path_join.
  assert (rev (chars (OUT_DIR +:+ "/" +:+ video_stem ts i +:+ ".mp4"))
          = (rev (chars ".mp4") ++ rev (chars (video_stem ts i)))
              ++ "/"%char :: rev (chars OUT_DIR)) as ->.
  { rewrite !chars_app, !rev_app_distr. simpl. by rewrite <- !app_assoc. }
  rewrite until_char_at_first.
  2:{ apply Forall_app. split; [by repeat constructor|].
      apply Forall_rev. by apply video_stem_clean; [..|repeat constructor]. }
  assert (until_char "." (rev (chars ".mp4") ++ rev (chars (video_stem ts i)))
          = (["4"; "p"; "m"]%char, Some (rev (chars (video_stem ts i)))))
    as Hdot.
  { apply (until_char_at_first "." ["4"; "p"; "m"]%char).
    by repeat constructor. }
  assert (exists c l, rev (chars (video_stem ts i)) = c :: l) as (c & l & Hc).
  { destruct (rev (chars (video_stem ts i))) as [|c l] eqn:Hr; [|eauto].
    apply (f_equal (@rev ascii)) in Hr. rewrite rev_involutive in Hr.
    unfold video_stem in Hr. by rewrite chars_app in Hr. }
  destruct (rev (chars ".mp4") ++ rev (chars (video_stem ts i)))
    as [|a rname] eqn:Hname; [done|].
  rewrite Hdot.
  destruct (String.eqb_spec
              (OUT_DIR +:+ "/" +:+ video_stem ts i +:+ ".mp4") ".") as [He|_].
  { apply (f_equal chars) in He. by rewrite chars_app in He. }
  rewrite Hc. simpl. change (rev l ++ [c]) with (rev (c :: l)).
  by rewrite <- Hc, rev_involutive, of_chars_chars.
Qed.

(** X5.  In the batch the narration of a tip lands next to its video, under the
    same stem: [with_suffix] does not raise on an output path of the loop
    and gives [outputs/tech_tip_<ts>_<i+1>.mp3]. *)
Theorem narration_path_of_batch (ts : Z) (i : nat) :
  with_suffix (path_join OUT_DIR (video_name ts i)) ".mp3"
  = Ok (path_join OUT_DIR (video_stem ts i +:+ ".mp3")).
Proof. apply with_suffix_video_path. Qed.

(** ** The background, whatever the stock clip *)

Lemma float_of_int_raise z e : float_of_int z = Raise e -> e = OverflowError.
Proof.
  unfold float_of_int. destruct (binary_normalize _ _ _ _ _); congruence.
Qed.

Lemma py_add_raise x y e : py_add x y = Raise e -> e = OverflowError.
Proof.
  destruct x as [a|f], y as [b|g]; simpl; try discriminate.
  - destruct (float_of_int a) eqn:Hf; simpl; [discriminate|].
    intros [= <-]. by eapply float_of_int_raise.
  - destruct (float_of_int b) eqn:Hf; simpl; [discriminate|].
    intros [= <-]. by eapply float_of_int_raise.
Qed.

Lemma py_sub_raise x y e : py_sub x y = Raise e -> e = OverflowError.
Proof.
  destruct x as [a|f], y as [b|g]; simpl; try discriminate.
  - destruct (float_of_int a) eqn:Hf; simpl; [discriminate|].
    intros [= <-]. by eapply float_of_int_raise.
  - destruct (float_of_int b) eqn:Hf; simpl; [discriminate|].
    intros [= <-]. by eapply float_of_int_raise.
Qed.

(** [subclip] only changes the duration, and what it raises is an
    ordinary exception. *)
Lemma subclip_cases t_start t_end c :
  (exists d, subclip t_start t_end c = Ok (set_duration d c))
  \/ (exists e, subclip t_start t_end c = Raise e /\ e <> SystemExit).
Proof.
  unfold subclip, duration_of.
  destruct (py_lt t_start (PInt 0)).
  - destruct (c_duration c) as [d|] eqn:Hd; simpl;
      [|right; by eexists].
    destruct (py_add d t_start) as [s|e] eqn:Hs; simpl.
    2:{ right. exists e. split; [done|].
        apply py_add_raise in Hs as ->. done. }
    destruct (py_lt d s); simpl; [right; by eexists|].
    destruct (py_lt t_end (PInt 0)).
    + destruct (py_add d t_end) as [t|e] eqn:Ht; simpl.
      2:{ right. exists e. split; [done|].
          apply py_add_raise in Ht as ->. done. }
      destruct (py_sub t s) as [r|e] eqn:Hr; simpl; [left; by eexists|].
      right. exists e. split; [done|]. apply py_sub_raise in Hr as ->. done.
    + simpl. destruct (py_sub t_end s) as [r|e] eqn:Hr; simpl;
        [left; by eexists|].
      right. exists e. split; [done|]. apply py_sub_raise in Hr as ->. done.
  - simpl.
    assert ((exists d, (t_end' ← (if py_lt t_end (PInt 0)
                                 then match c_duration c with
                                      | Some d => py_add d t_end
                                      | None => Ok t_end
                                      end
                                 else Ok t_end);
                       d ← py_sub t_end' t_start; Ok (set_duration d c))
                      = Ok (set_duration d c))
            \/ (exists e, (t_end' ← (if py_lt t_end (PInt 0)
                                   then match c_duration c with
                                        | Some d => py_add d t_end
                                        | None => Ok t_end
                                        end
                                   else Ok t_end);
                         d ← py_sub t_end' t_start; Ok (set_duration d c))
                        = Raise e /\ e <> SystemExit)) as Hrest.
    { destruct (py_lt t_end (PInt 0)).
      - destruct (c_duration c) as [d|]; simpl.
        + destruct (py_add d t_end) as [t|e] eqn:Ht; simpl.
          2:{ right. exists e. split; [done|].
              apply py_add_raise in Ht as ->. done. }
          destruct (py_sub t t_start) as [r|e] eqn:Hr; simpl;
            [left; by eexists|].
          right. exists e. split; [done|].
          apply py_sub_raise in Hr as ->. done.
        + destruct (py_sub t_end t_start) as [r|e] eqn:Hr; simpl;
            [left; by eexists|].
          right. exists e. split; [done|].
          apply py_sub_raise in Hr as ->. done.
      - simpl. destruct (py_sub t_end t_start) as [r|e] eqn:Hr; simpl;
          [left; by eexists|].
        right. exists e. split; [done|].
        apply py_sub_raise in Hr as ->. done. }
    destruct (c_duration c) as [d|]; simpl; [|exact Hrest].
    destruct (py_lt d t_start); simpl; [right; by eexists|exact Hrest].
Qed.

(** Cropping to the frame: a clip wider than [W] and [H] high comes out
    [W] by [H]. *)
Lemma crop_to_frame c :
  W < c_w c -> c_h c = H ->
  c_w (crop_centered (c_w c) W (Some (c_h c, H)) c) = W
  /\ c_h (crop_centered (c_w c) W (Some (c_h c, H)) c) = H.
Proof.
  intros Hw Hh. unfold crop_centered. rewrite Hh.
  unfold W in *. change (H =? 0) with false. change (H + H =? 0) with false.
  destruct (Z.eqb_spec (c_w c) 0) as [|_]; [lia|].
  destruct (Z.eqb_spec (c_w c + 1080) 0) as [|_]; [lia|].
  simpl. split; [|reflexivity].
  unfold slice_len.
  assert (0 <= Z.quot (c_w c - 1080) 2) by (apply Z.quot_pos; lia).
  assert (Z.quot (c_w c + 1080) 2 = Z.quot (c_w c - 1080) 2 + 1080) as ->.
  { rewrite !Z.quot_div_nonneg by lia.
    replace (c_w c + 1080) with (c_w c - 1080 + 1080 * 2) by lia.
    by rewrite Z.div_add by lia. }
  assert (Z.quot (c_w c - 1080) 2 + 1080 <= c_w c).
  { rewrite Z.quot_div_nonneg by lia.
    pose proof (Z.mul_div_le (c_w c - 1080) 2). lia. }
  destruct (Z.ltb_spec (Z.quot (c_w c - 1080) 2 + 1080) 0); [lia|].
  destruct (Z.ltb_spec (Z.quot (c_w c - 1080) 2) 0); lia.
Qed.

(** The guarded part of the second script's [background]: either a stock
    background that fits the frame, or an ordinary exception. *)
Lemma local_stock_attempt d p w :
  let body :=
    (bg ← VideoFileClip p;
     bg ← lift (resize_height H bg);
     let bg :=
       if W <? c_w bg
       then crop_centered (c_w bg) W (Some (c_h bg, H)) bg
       else bg in
     native ← lift (duration_of bg);
     bg ← lift (subclip (PInt 0) (py_min d native) bg);
     mret (set_duration d bg)) : M clip in
  (exists bg, body w = (Ok bg, w) /\ fits_frame d bg
              /\ c_layers bg = [SrcStock p])
  \/ (exists e, body w = (Raise e, w) /\ e <> SystemExit).
Proof.
  intros body. unfold body, VideoFileClip, read_file, mbind, M_bind, lift.
  destruct (disk w !! p) as [f|]; [|right; by eexists].
  destruct f as [| wd ht native | | |]; try (right; by eexists).
  simpl. unfold resize_height. simpl.
  destruct (Z.eqb_spec ht 0) as [|Hht]; [right; by eexists|].
  set (resized := Clip [SrcStock p] (Z.quot (wd * H) ht) H (Some native)
                    None None).
  set (cropped := if W <? c_w resized
                  then crop_centered (c_w resized) W
                         (Some (c_h resized, H)) resized
                  else resized).
  assert (c_duration cropped = Some native /\ c_h cropped = H
          /\ c_w cropped <= W /\ c_layers cropped = [SrcStock p])
    as (Hdur & Hh & Hw & Hl).
  { unfold cropped. destruct (Z.ltb_spec W (c_w resized)) as [Hlt|Hge].
    - destruct (crop_to_frame resized Hlt eq_refl) as [Hcw Hch].
      rewrite crop_centered_duration, crop_centered_layers, Hcw, Hch.
      repeat split; done.
    - repeat split; done. }
  unfold duration_of. rewrite Hdur.
  destruct (subclip_cases (PInt 0) (py_min d native) cropped)
    as [[d' ->]|(e & -> & He)].
  - left. eexists. split; [reflexivity|]. by repeat split.
  - right. by exists e.
Qed.

Lemma local_background_cases (d : pynum) (color : Z * Z * Z)
    (stock : option string) (w : world) :
  stock_on_disk w stock ->
  exists bg,
    GenerateVideosLocal.background d color stock w = (Ok bg, w)
    /\ c_duration bg = Some d
    /\ c_h bg = H
    /\ c_w bg <= W
    /\ (bg = ColorClip W H color d
        \/ exists p, stock = Some p /\ c_layers bg = [SrcStock p]).
Proof.
  intros Hstock. unfold GenerateVideosLocal.background.
  destruct stock as [p|].
  2:{ eexists. split; [reflexivity|]. repeat split; try done. by left. }
  change (default EmptyString (Some p)) with p.
  unfold str_truthy.
  destruct (String.eqb_spec p EmptyString) as [->|Hp].
  { eexists. split; [reflexivity|]. repeat split; try done. by left. }
  destruct (Hstock p eq_refl) as [|Hex]; [done|].
  unfold mbind at 1, M_bind at 1, path_exists. cbn [negb]. cbv beta.
  rewrite (bool_decide_eq_true_2 _ Hex).
  unfold try_except_Exception.
  pose proof (local_stock_attempt d p w) as Hs. cbv zeta in Hs.
  destruct Hs as [(bg & -> & (Hdur & Hh & Hw) & Hl)|(e & -> & He)].
  - exists bg. split; [done|]. repeat split; try done. right. by exists p.
  - exists (ColorClip W H color d).
    split; [by destruct e|]. repeat split; try done. by left.
Qed.

(** X6.  Given no stock clip, an empty name, or the name of a file that is
    there, the background of [generate_videos_local.py] never raises,
    whatever that file holds: it leaves the world as it is and returns a
    track that lasts the requested duration, is 1920 high and at most 1080
    wide - made of the stock clip when it can be used, the solid colour
    otherwise. *)
Theorem local_background_never_raises (d : pynum) (color : Z * Z * Z)
    (stock : option string) (w : world) :
  stock_on_disk w stock ->
  exists bg,
    GenerateVideosLocal.background d color stock w = (Ok bg, w)
    /\ c_duration bg = Some d
    /\ c_h bg = H
    /\ c_w bg <= W
    /\ (bg = ColorClip W H color d
        \/ exists p, stock = Some p /\ c_layers bg = [SrcStock p]).
Proof. apply local_background_cases. Qed.

Lemma local_background_never_raises_witness :
  exists bg,
    GenerateVideosLocal.background (PInt 8) (18, 18, 18)
      (Some "assets/a.mp4") (world_with_stock FOther)
    = (Ok bg, world_with_stock FOther)
    /\ c_duration bg = Some (PInt 8)
    /\ c_h bg = H
    /\ c_w bg <= W
    /\ (bg = ColorClip W H (18, 18, 18) (PInt 8)
        \/ exists p, Some "assets/a.mp4" = Some p
                     /\ c_layers bg = [SrcStock p]).
Proof.
  apply (local_background_never_raises (PInt 8) (18, 18, 18)
           (Some "assets/a.mp4") (world_with_stock FOther)).
  intros p [= <-]. right. by eexists.
Defined.

(** ** Builds, forwards *)

Lemma bind_ok {A B} (m : M A) (f : A -> M B) w a w1 :
  m w = (Ok a, w1) -> (m ≫= f) w = f a w1.
Proof. unfold mbind, M_bind. by intros ->. Qed.

Lemma bind_raise {A B} (m : M A) (f : A -> M B) w e w1 :
  m w = (Raise e, w1) -> (m ≫= f) w = (Raise e, w1).
Proof. unfold mbind, M_bind. by intros ->. Qed.

Lemma create_voice_run E text p w d :
  tts E text = Ok d ->
  create_voice E text p w = (Ok tt, after w (EvWrite p (FAudio d))).
Proof. unfold create_voice, mbind, M_bind, lift. by intros ->. Qed.

Lemma create_voice_fail E text p w e :
  tts E text = Raise e -> create_voice E text p w = (Raise e, w).
Proof. unfold create_voice, mbind, M_bind, lift. by intros ->. Qed.

Lemma AudioFileClip_run p w d :
  disk w !! p = Some (FAudio d) -> AudioFileClip p w = (Ok (AudioClip p d), w).
Proof. unfold AudioFileClip, read_file, mbind, M_bind. by intros ->. Qed.

Lemma write_videofile_run E c p w d :
  c_duration c = Some d -> encode_ok E p = true ->
  write_videofile E c p w
  = (Ok tt, after w (EvWrite p (FVideo (c_w c) (c_h c) d))).
Proof.
  unfold write_videofile, mbind, M_bind, lift, duration_of.
  by intros -> ->.
Qed.

Lemma write_videofile_fail E c p w d :
  c_duration c = Some d -> encode_ok E p = false ->
  write_videofile E c p w = (Raise RenderError, w).
Proof.
  unfold write_videofile, mbind, M_bind, lift, duration_of.
  by intros -> ->.
Qed.

Lemma local_caption_run E text wd ht d w :
  render_ok E text = true ->
  GenerateVideosLocal.create_text_image_clip E text wd ht d w
  = (Ok (Clip [SrcImage (caption_path E w)] wd ht (Some d) None None,
         caption_path E w),
     captioned w (caption_path E w) wd ht).
Proof.
  intros Hr. unfold GenerateVideosLocal.create_text_image_clip.
  rewrite Hr. unfold ImageClip, read_file, uuid4_hex, write_file.
  unfold mbind, M_bind. simpl.
  rewrite lookup_insert_eq. reflexivity.
Qed.

Lemma local_caption_fail E text wd ht d w :
  render_ok E text = false ->
  GenerateVideosLocal.create_text_image_clip E text wd ht d w
  = (Raise RenderError, w).
Proof.
  intros Hr. unfold GenerateVideosLocal.create_text_image_clip.
  by rewrite Hr.
Qed.

Lemma lift_run {A} (o : outcome A) (a : A) w :
  o = Ok a -> lift o w = (Ok a, w).
Proof. by intros ->. Qed.

Lemma lookup_after_write w p f : disk (after w (EvWrite p f)) !! p = Some f.
Proof. simpl. apply lookup_insert_eq. Qed.

Lemma stock_on_disk_write w p f stock :
  stock_on_disk w stock -> stock_on_disk (after w (EvWrite p f)) stock.
Proof.
  intros Hs q Hq. destruct (Hs q Hq) as [|Hex]; [by left|right].
  simpl. rewrite lookup_insert. case_decide; [by eexists|done].
Qed.

Lemma local_build_video_run (E : env) (tip : pystr) (out : string)
    (dur : option pynum) (color : Z * Z * Z) (stock : option string)
    (w : world) (af : string) (aud : spec_float) :
  with_suffix out ".mp3" = Ok af ->
  stock_on_disk w stock ->
  tts E tip = Ok aud ->
  render_ok E tip = true ->
  encode_ok E out = true ->
  let w1 := after w (EvWrite af (FAudio aud)) in
  let tmp := caption_path E w in
  let w2 := after (captioned w1 tmp W H)
              (EvWrite out (FVideo W H (clip_duration_of dur aud))) in
  GenerateVideosLocal.build_video E tip out dur color stock w
  = (Ok tt, if unlink_ok E tmp then after w2 (EvUnlink tmp) else w2).
Proof.
  intros Haf Hstock Htts Hrender Hencode w1 tmp w2.
  unfold GenerateVideosLocal.build_video.
  erewrite bind_ok by (by apply lift_run).
  erewrite bind_ok by (by apply create_voice_run).
  erewrite bind_ok by apply AudioFileClip_run, lookup_after_write.
  cbn [a_duration].
  destruct (local_background_cases (clip_duration_of dur aud) color
              stock w1) as (bg & Hbg & _); [by apply stock_on_disk_write|].
  erewrite bind_ok by exact Hbg.
  rewrite (bind_ok _ _ _ _ _
             (local_caption_run E tip W H _ w1 Hrender)).
  erewrite bind_ok by (by apply write_videofile_run).
  erewrite bind_ok by apply audio_close_swallowed.
  rewrite unlink_swallowed.
  replace (bool_decide _) with true; [done|].
  symmetry. apply bool_decide_eq_true_2. simpl.
  destruct (decide (out = tmp)) as [->|Hne].
  - rewrite lookup_insert_eq. by eexists.
  - rewrite lookup_insert_ne by done. rewrite lookup_insert_eq. by eexists.
Qed.

(** X8.  A build of [generate_videos_local.py], given no stock clip or the
    name of a file that is there, depends on three services only: the
    narration, the drawing of the caption and the encoder.  When the three
    work the build finishes, whatever the stock file holds and whatever
    closing the narration or deleting the caption image does; the
    narration, the caption image and the video are written in this order,
    the video 1080 by 1920 with the computed duration, and the caption
    image is deleted when it can be. *)
Theorem local_build_video_succeeds (E : env) (tip : pystr) (out : string)
    (dur : option pynum) (color : Z * Z * Z) (stock : option string)
    (w : world) (af : string) (aud : spec_float) :
  with_suffix out ".mp3" = Ok af ->
  stock_on_disk w stock ->
  tts E tip = Ok aud ->
  render_ok E tip = true ->
  encode_ok E out = true ->
  let w1 := after w (EvWrite af (FAudio aud)) in
  let tmp := caption_path E w in
  let w2 := after (captioned w1 tmp W H)
              (EvWrite out (FVideo W H (clip_duration_of dur aud))) in
  GenerateVideosLocal.build_video E tip out dur color stock w
  = (Ok tt, if unlink_ok E tmp then after w2 (EvUnlink tmp) else w2).
Proof. apply local_build_video_run. Qed.

Lemma narration_is_no_caption E out af w :
  with_suffix out ".mp3" = Ok af -> af <> caption_path E w.
Proof.
  intros Haf Heq. apply with_suffix_last_char in Haf; [|done].
  rewrite Heq in Haf. unfold caption_path in Haf.
  rewrite caption_path_last_char in Haf. discriminate.
Qed.

(** X9.  How a build of [generate_videos_local.py] fails, given no stock
    clip or the name of a file that is there.  A failed narration is raised
    as it is.  A caption that cannot be drawn raises with the narration
    file on the disk.  An encoder that fails raises with the narration file
    and the caption image on the disk: the lines that would delete the
    image are not reached, and nothing else cleans up. *)
Theorem local_build_video_failures (E : env) (tip : pystr) (out : string)
    (dur : option pynum) (color : Z * Z * Z) (stock : option string)
    (w : world) (af : string) :
  with_suffix out ".mp3" = Ok af ->
  stock_on_disk w stock ->
  let r := GenerateVideosLocal.build_video E tip out dur color stock w in
  (forall e, tts E tip = Raise e -> r.1 = Raise e)
  /\ (forall aud, tts E tip = Ok aud ->
      (render_ok E tip = false ->
       r.1 = Raise RenderError /\ disk r.2 !! af = Some (FAudio aud))
      /\ (render_ok E tip = true -> encode_ok E out = false ->
          r.1 = Raise RenderError
          /\ disk r.2 !! af = Some (FAudio aud)
          /\ disk r.2 !! caption_path E w = Some (FImage W H))).
Proof.
  intros Haf Hstock r. unfold r, GenerateVideosLocal.build_video.
  erewrite bind_ok by (by apply lift_run).
  split.
  - intros e Htts. by erewrite bind_raise by (by apply create_voice_fail).
  - intros aud Htts. set (w1 := after w (EvWrite af (FAudio aud))).
    erewrite bind_ok by (by apply create_voice_run).
    erewrite bind_ok by apply AudioFileClip_run, lookup_after_write.
    cbn [a_duration].
    destruct (local_background_cases (clip_duration_of dur aud) color
                stock w1) as (bg & Hbg & _); [by apply stock_on_disk_write|].
    erewrite bind_ok by exact Hbg.
    split.
    + intros Hrender.
      erewrite bind_raise by (by apply local_caption_fail).
      split; [done|]. apply lookup_after_write.
    + intros Hrender Hencode.
      rewrite (bind_ok _ _ _ _ _
                 (local_caption_run E tip W H _ w1 Hrender)).
      erewrite bind_raise by (by eapply write_videofile_fail).
      split; [done|]. simpl. split.
      * rewrite lookup_insert_ne
          by (intros Heq; by apply (narration_is_no_caption E out af w)).
        apply lookup_insert_eq.
      * apply lookup_insert_eq.
Qed.

Lemma local_build_video_failures_witness :
  (GenerateVideosLocal.build_video env_failing_third (py "Tip C.")
     "outputs/c.mp4" None (18, 18, 18) None empty_world).1
  = Raise ServiceError
  /\ disk (GenerateVideosLocal.build_video env_no_render (py "Tip A.")
             "outputs/a.mp4" None (18, 18, 18) None empty_world).2
       !! "outputs/a.mp3"
     = Some (FAudio two_seconds)
  /\ disk (GenerateVideosLocal.build_video env_no_encode (py "Tip A.")
             "outputs/a.mp4" None (18, 18, 18) None empty_world).2
       !! "outputs/text_0.png"
     = Some (FImage W H).
Proof.
  split; [|split].
  - apply (local_build_video_failures env_failing_third (py "Tip C.")
             "outputs/c.mp4" None (18, 18, 18) None empty_world
             "outputs/c.mp3"); [reflexivity|discriminate|reflexivity].
  - destruct (local_build_video_failures env_no_render (py "Tip A.")
                "outputs/a.mp4" None (18, 18, 18) None empty_world
                "outputs/a.mp3" eq_refl) as [_ Hlater]; [discriminate|].
    destruct (Hlater two_seconds eq_refl) as [Hdraw _].
    apply (Hdraw eq_refl).
  - destruct (local_build_video_failures env_no_encode (py "Tip A.")
                "outputs/a.mp4" None (18, 18, 18) None empty_world
                "outputs/a.mp3" eq_refl) as [_ Hlater]; [discriminate|].
    destruct (Hlater two_seconds eq_refl) as [_ Hencode].
    apply (Hencode eq_refl eq_refl).
Defined.

Lemma local_build_video_succeeds_witness :
  GenerateVideosLocal.build_video (env_replying five_tips) (py "Tip A.")
    "outputs/a.mp4" None (18, 18, 18) (Some "assets/a.mp4")
    (world_with_stock FOther)
  = (Ok tt,
     World {["assets/a.mp4" := FOther;
             "outputs/a.mp3" := FAudio two_seconds;
             "outputs/a.mp4" := FVideo W H (PInt 8)]}
       [EvWrite "outputs/a.mp3" (FAudio two_seconds);
        EvWrite "outputs/text_0.png" (FImage W H);
        EvWrite "outputs/a.mp4" (FVideo W H (PInt 8));
        EvUnlink "outputs/text_0.png"] 0 1).
Proof.
  rewrite (local_build_video_succeeds (env_replying five_tips) (py "Tip A.")
             "outputs/a.mp4" None (18, 18, 18) (Some "assets/a.mp4")
             (world_with_stock FOther) "outputs/a.mp3" two_seconds).
  - reflexivity.
  - reflexivity.
  - intros p [= <-]. right. by eexists.
  - reflexivity.
  - reflexivity.
  - reflexivity.
Defined.

Lemma TextClip_run E text w :
  render_ok E text = true ->
  TextClip E text w
  = (Ok (Clip [SrcText text] (text_size E text).1 (text_size E text).2
           None None None), w).
Proof. unfold TextClip. by intros ->. Qed.

Lemma TextClip_fail E text w :
  render_ok E text = false -> TextClip E text w = (Raise RenderError, w).
Proof. unfold TextClip. by intros ->. Qed.

(** The first script's build from the background on: it finishes with the
    video recorded, or it raises and records nothing. *)
Lemma remote_build_video_tail E tip out dur bg af aud w1 :
  let d := clip_duration_of dur aud in
  let tail :=
    (txt_clip ← TextClip E tip;
     let txt_clip := set_duration d txt_clip in
     cta ← TextClip E cta_text;
     let cta := set_duration d cta in
     let final :=
       set_duration d (CompositeVideoClip [bg; txt_clip; cta] W H) in
     let final := set_audio (AudioClip af aud) final in
     write_videofile E final out;;
     try_except (audio_close E (AudioClip af aud)) (mret tt)) : M unit in
  (tail w1 = (Ok tt, after w1 (EvWrite out (FVideo W H d)))
   \/ exists e, tail w1 = (Raise e, w1))
  /\ (render_ok E tip = true -> render_ok E cta_text = true ->
      encode_ok E out = true ->
      tail w1 = (Ok tt, after w1 (EvWrite out (FVideo W H d)))).
Proof.
  intros d tail. unfold tail.
  destruct (render_ok E tip) eqn:Htip.
  2:{ split; [|done]. right. eexists.
      by erewrite bind_raise by (by apply TextClip_fail). }
  erewrite bind_ok by (by apply TextClip_run).
  destruct (render_ok E cta_text) eqn:Hcta.
  2:{ split; [|done]. right. eexists.
      by erewrite bind_raise by (by apply TextClip_fail). }
  erewrite bind_ok by (by apply TextClip_run).
  destruct (encode_ok E out) eqn:Henc.
  2:{ split; [|done]. right. eexists.
      by erewrite bind_raise by (by eapply write_videofile_fail). }
  erewrite bind_ok by (by apply write_videofile_run).
  rewrite audio_close_swallowed. split; [by left|done].
Qed.

Lemma remote_build_video_run (E : env) (tip : pystr) (out : string)
    (dur : option pynum) (color : Z * Z * Z) (stock : option string)
    (w : world) (af : string) (aud : spec_float) :
  with_suffix out ".mp3" = Ok af ->
  tts E tip = Ok aud ->
  let r := GenerateVideos.build_video E tip out dur color stock w in
  let w1 := after w (EvWrite af (FAudio aud)) in
  let w2 := after w1 (EvWrite out (FVideo W H (clip_duration_of dur aud))) in
  (r = (Ok tt, w2)
   \/ exists e, r.1 = Raise e /\ disk r.2 !! af = Some (FAudio aud))
  /\ (str_truthy stock = false -> render_ok E tip = true ->
      render_ok E cta_text = true -> encode_ok E out = true ->
      r = (Ok tt, w2)).
Proof.
  intros Haf Htts r w1 w2. unfold r, GenerateVideos.build_video.
  erewrite bind_ok by (by apply lift_run).
  erewrite bind_ok by (by apply create_voice_run).
  erewrite bind_ok by apply AudioFileClip_run, lookup_after_write.
  cbn [a_duration].
  destruct (GenerateVideos.background (clip_duration_of dur aud) color stock
              (after w (EvWrite af (FAudio aud)))) as [[bg|e] w'] eqn:Hbg.
  - pose proof (readonly_step _ _ _ _ (remote_background_readonly _ _ _) Hbg)
      as ->.
    erewrite bind_ok by exact Hbg.
    destruct (remote_build_video_tail E tip out dur bg af aud w1)
      as [[Hok|[e He]] Hgood]; cbv zeta in *.
    + split; [left; exact Hok|]. intros _. exact Hgood.
    + split; [|intros _; exact Hgood].
      right. exists e. unfold w1 in He. rewrite He.
      split; [done|]. apply lookup_after_write.
  - pose proof (readonly_step _ _ _ _ (remote_background_readonly _ _ _) Hbg)
      as ->.
    erewrite bind_raise by exact Hbg.
    split.
    + right. exists e. split; [done|]. apply lookup_after_write.
    + intros Hstock. exfalso. revert Hbg.
      unfold GenerateVideos.background. rewrite Hstock. discriminate.
Qed.

(** X10.  A build of [generate_videos.py] once the narration is made: it
    either finishes, having written the narration file and then the video,
    1080 by 1920 with the computed duration, or it raises, and then the
    narration file is on the disk: nothing cleans up on the way out.
    Without a stock clip it finishes when the two texts can be rendered and
    the encoder works. *)
Theorem remote_build_video_outcomes (E : env) (tip : pystr) (out : string)
    (dur : option pynum) (color : Z * Z * Z) (stock : option string)
    (w : world) (af : string) (aud : spec_float) :
  with_suffix out ".mp3" = Ok af ->
  tts E tip = Ok aud ->
  let r := GenerateVideos.build_video E tip out dur color stock w in
  let w1 := after w (EvWrite af (FAudio aud)) in
  let w2 := after w1 (EvWrite out (FVideo W H (clip_duration_of dur aud))) in
  (r = (Ok tt, w2)
   \/ exists e, r.1 = Raise e /\ disk r.2 !! af = Some (FAudio aud))
  /\ (str_truthy stock = false -> render_ok E tip = true ->
      render_ok E cta_text = true -> encode_ok E out = true ->
      r = (Ok tt, w2)).
Proof. apply remote_build_video_run. Qed.

Lemma remote_build_video_outcomes_witness :
  GenerateVideos.build_video (env_replying five_tips) (py "Tip A.")
    "outputs/a.mp4" None (18, 18, 18) None empty_world
  = (Ok tt,
     World {["outputs/a.mp3" := FAudio two_seconds;
             "outputs/a.mp4" := FVideo W H (PInt 8)]}
       [EvWrite "outputs/a.mp3" (FAudio two_seconds);
        EvWrite "outputs/a.mp4" (FVideo W H (PInt 8))] 0 0).
Proof.
  destruct (remote_build_video_outcomes (env_replying five_tips)
              (py "Tip A.") "outputs/a.mp4" None (18, 18, 18) None
              empty_world "outputs/a.mp3" two_seconds eq_refl eq_refl)
    as [_ Hgood].
  rewrite (Hgood eq_refl eq_refl eq_refl eq_refl). reflexivity.
Defined.

(** ** Whole runs, forwards *)

Lemma print_run E msg w :
  forallb (encodable E) msg = true ->
  print E msg w = (Ok tt, after w (EvPrint msg)).
Proof. unfold print. by intros ->. Qed.

Lemma print_fail E msg w :
  forallb (encodable E) msg = false -> print E msg w = (Raise ValueError, w).
Proof. unfold print. by intros ->. Qed.

Lemma progress_line_encodable E tip :
  forallb (encodable E) (py "Generating: " ++ tip)
  = forallb (encodable E) tip.
Proof.
  rewrite forallb_app.
  assert (forallb (encodable E) (py "Generating: ") = true) as ->; [|done].
  apply forallb_forall. intros c Hc. unfold encodable.
  apply orb_true_iff. left. revert c Hc. apply List.Forall_forall.
  vm_compute. repeat constructor.
Qed.

Lemma print_progress_run E tip w :
  forallb (encodable E) tip = true ->
  print E (py "Generating: " ++ tip) w
  = (Ok tt, after w (EvPrint (py "Generating: " ++ tip))).
Proof. intros Ht. apply print_run. by rewrite progress_line_encodable. Qed.









Section Runs.
Context `{UnicodeDb} (E : env).





End Runs.



(** ** Runs that stop early *)

Lemma startup_cases (E : env) (m : M unit) (w : world) :
  let s := ((if str_truthy (api_key E) then mret tt else raise SystemExit);;
            mkdir_exist_ok OUT_DIR;; mkdir_exist_ok ASSETS_DIR;; m) in
  (str_truthy (api_key E) = false -> s w = (Raise SystemExit, w))
  /\ (str_truthy (api_key E) = true ->
      is_Some (disk w !! OUT_DIR) \/ is_Some (disk w !! ASSETS_DIR) ->
      s w = (Raise OSError, w))
  /\ (str_truthy (api_key E) = true ->
      disk w !! OUT_DIR = None -> disk w !! ASSETS_DIR = None ->
      s w = m w).
Proof.
  intros s. unfold s, mbind, M_bind, mkdir_exist_ok.
  split; [|split].
  - by intros ->.
  - intros -> [[f Hf]|[f Hf]]; simpl in *.
    + by rewrite Hf.
    + destruct (disk w !! OUT_DIR); [done|]. by rewrite Hf.
  - intros -> Hout Hassets. simpl in *. by rewrite Hout, Hassets.
Qed.





(** ** What a finished run prints *)

Lemma printed_app evs evs' :
  printed (evs ++ evs') = printed evs ++ printed evs'.
Proof. apply omap_app. Qed.

Lemma slept_app evs evs' : slept (evs ++ evs') = slept evs ++ slept evs'.
Proof. apply omap_app. Qed.

Lemma remote_build_video_quiet E tip out dur color stock w w' :
  GenerateVideos.build_video E tip out dur color stock w = (Ok tt, w') ->
  quiet w w'.
Proof.
  intros Hb. apply remote_build_video_ok in Hb as (af & aud & _ & _ & ->).
  eexists [_; _]. simpl. by rewrite <- app_assoc.
Qed.

Lemma local_build_video_quiet E tip out dur color stock w w' :
  GenerateVideosLocal.build_video E tip out dur color stock w = (Ok tt, w') ->
  quiet w w'.
Proof.
  intros Hb. apply local_build_video_ok in Hb as (af & aud & _ & _ & Ht & _).
  eexists. split; [exact Ht|]. by destruct (unlink_ok E _).
Qed.

Lemma loop_output_cons tip tips w w1 w2 w3 w4 w' :
  trace w1 = trace w ->
  w2 = after w1 (EvPrint (progress_line tip)) ->
  quiet w2 w3 ->
  w4 = after w3 (EvSleep 1) ->
  loop_output tips w4 w' ->
  loop_output (tip :: tips) w w'.
Proof.
  intros Ht1 -> (evs & Ht3 & Hp & Hs) -> (evs' & Ht' & Hp' & Hs').
  exists ([EvPrint (progress_line tip)] ++ evs ++ [EvSleep 1] ++ evs').
  split.
  { rewrite Ht'. simpl. rewrite Ht3. simpl. rewrite Ht1.
    by rewrite <- !app_assoc. }
  rewrite !printed_app, !slept_app, Hp, Hs, Hp', Hs'. done.
Qed.

Lemma remote_main_loop_output E tips : forall i stock acc w res w',
  GenerateVideos.main_loop E i tips stock acc w = (Ok res, w') ->
  loop_output tips w w'.
Proof.
  induction tips as [|tip tips IH]; intros i stock acc w res w'; simpl.
  - intros [= <- <-]. exists []. by rewrite app_nil_r.
  - intros Hb.
    apply bind_ok_inv in Hb as (ts & w1 & Hts & Hb).
    apply time_now_ok_inv in Hts as (_ & Ht1 & _).
    apply bind_ok_inv in Hb as (st & w1' & Hst & Hb).
    apply lift_ok_inv in Hst as [_ ->].
    apply bind_ok_inv in Hb as ([] & w2 & Hpr & Hb).
    apply print_ok_inv in Hpr.
    apply bind_ok_inv in Hb as ([] & w3 & Hbv & Hb).
    apply remote_build_video_quiet in Hbv.
    apply bind_ok_inv in Hb as ([] & w4 & Hsl & Hb).
    apply sleep_ok_inv in Hsl.
    apply IH in Hb. by eapply loop_output_cons.
Qed.

Lemma local_main_loop_output E tips : forall i stock acc w res w',
  GenerateVideosLocal.main_loop E i tips stock acc w = (Ok res, w') ->
  loop_output tips w w'.
Proof.
  induction tips as [|tip tips IH]; intros i stock acc w res w'; simpl.
  - intros [= <- <-]. exists []. by rewrite app_nil_r.
  - intros Hb.
    apply bind_ok_inv in Hb as (ts & w1 & Hts & Hb).
    apply time_now_ok_inv in Hts as (_ & Ht1 & _).
    apply bind_ok_inv in Hb as (st & w1' & Hst & Hb).
    apply lift_ok_inv in Hst as [_ ->].
    apply bind_ok_inv in Hb as ([] & w2 & Hpr & Hb).
    apply print_ok_inv in Hpr.
    apply bind_ok_inv in Hb as ([] & w3 & Hbv & Hb).
    apply local_build_video_quiet in Hbv.
    apply bind_ok_inv in Hb as ([] & w4 & Hsl & Hb).
    apply sleep_ok_inv in Hsl.
    apply IH in Hb. by eapply loop_output_cons.
Qed.

Lemma script_over_output E generated loop :
  (forall tips stock w res w',
     loop tips stock w = (Ok res, w') -> loop_output tips w w') ->
  finished_output (script_over E generated loop) generated.
Proof.
  intros Hloop w w' Hrun.
  destruct (script_over_cases E generated loop w) as [Hs | [e Hs]];
    rewrite Hs in Hrun; [|discriminate].
  unfold main_over in Hrun.
  apply bind_ok_inv in Hrun as (tips & w1 & Hgen & Hrun).
  apply lift_ok_inv in Hgen as [Hgen ->].
  apply bind_ok_inv in Hrun as (stock & w2 & Hglob & Hrun).
  injection Hglob as _ <-.
  apply bind_ok_inv in Hrun as (res & w3 & Hl & Hrun).
  apply Hloop in Hl as (evs & Ht & Hp & Hs').
  injection Hrun as <-.
  exists tips, (evs ++ [EvWrite manifest_path (FManifest res);
                        EvPrint done_message]).
  split; [done|]. split.
  { simpl. rewrite Ht. by rewrite <- !app_assoc. }
  rewrite printed_app, slept_app, Hp, Hs'. simpl.
  by rewrite app_nil_r.
Qed.

(** X15.  A finished run of either script shows one line [Generating: <tip>] per
    tip, in the order of the tips, and then [Done. Videos in outputs/];
    it pauses one second after each tip, and at no other time. *)
Theorem finished_run_output `{UnicodeDb} (E : env) :
  finished_output (GenerateVideos.script E)
    (GenerateVideos.generate_tech_tips E 5)
  /\ finished_output (GenerateVideosLocal.script E)
       (GenerateVideosLocal.generate_tech_tips E 5).
Proof.
  split.
  - apply (script_over_output E _
             (fun tips stock => GenerateVideos.main_loop E 0 tips stock [])).
    intros tips stock w res w'. apply remote_main_loop_output.
  - apply (script_over_output E _
             (fun tips stock =>
                GenerateVideosLocal.main_loop E 0 tips stock [])).
    intros tips stock w res w'. apply local_main_loop_output.
Qed.

Lemma finished_run_output_witness :
  exists tips evs,
    @GenerateVideosLocal.generate_tech_tips ascii_only_db
      (env_replying five_tips) 5 = Ok tips
    /\ trace (@GenerateVideosLocal.script ascii_only_db
                (env_replying five_tips) empty_world).2
       = trace empty_world ++ evs
    /\ printed evs = map progress_line tips ++ [done_message]
    /\ slept evs = map (fun _ => 1) tips.
Proof.
  destruct (@finished_run_output ascii_only_db (env_replying five_tips))
    as [_ Hlocal].
  apply (Hlocal empty_world). by vm_compute.
Defined.

(** ** The sentence fallback, in the words of the specification *)

(** *** Trimming *)






(** *** Splitting *)






Section Fallback.
Context `{UnicodeDb}.



End Fallback.




(** ** The batch, to the end *)

Lemma script_over_progress E generated loop :
  batch_progress E (script_over E generated loop) generated loop.
Proof.
  intros w.
  destruct (startup_cases E (main_over E generated loop) w)
    as (Hkey & Hdir & Hmain).
  unfold script_over.
  split; [intros Hk; by rewrite Hkey|].
  split; [intros Hk Hd; by rewrite Hdir|].
  intros Hk Hout Hassets. rewrite Hmain by done. unfold main_over.
  split.
  - intros e ->. reflexivity.
  - intros tips cands -> Hglob.
    erewrite bind_ok by reflexivity.
    erewrite bind_ok by exact Hglob.
    destruct (loop tips cands w) as [[results|e] w3] eqn:Hloop.
    + erewrite bind_ok by exact Hloop.
      erewrite bind_ok by reflexivity.
      by rewrite print_done_message.
    + by erewrite bind_raise by exact Hloop.
Qed.

Lemma stock_choice_cases (cands : list string) (i : nat) :
  exists stock,
    match cands with
    | [] => Ok None
    | _ => p ← index cands (i `mod` length cands)%nat; Ok (Some p)
    end = Ok stock
    /\ match cands with
       | [] => stock = None
       | _ => cands !! (i `mod` length cands)%nat = stock
       end.
Proof.
  destruct cands as [|c cands]; [by eexists|].
  unfold index.
  destruct (lookup_lt_is_Some_2 (c :: cands)
              (i `mod` length (c :: cands))%nat) as [p Hp].
  { apply Nat.mod_upper_bound. simpl. lia. }
  rewrite Hp. by eexists.
Qed.

Lemma remote_loop_step E i tip tips cands acc w stock :
  match cands with
  | [] => Ok None
  | _ => p ← index cands (i `mod` length cands)%nat; Ok (Some p)
  end = Ok stock ->
  let out := path_join OUT_DIR (video_name (time_at E (clock_reads w)) i) in
  GenerateVideos.main_loop E i (tip :: tips) cands acc w
  = (print E (progress_line tip);;
     GenerateVideos.build_video E tip out None (18, 18, 18) stock;;
     sleep 1;;
     GenerateVideos.main_loop E (S i) tips cands (acc ++ [(tip, out)]))
      (time_now E w).2.
Proof.
  intros Hst out. cbn [GenerateVideos.main_loop].
  erewrite bind_ok by reflexivity.
  by erewrite bind_ok by (apply lift_run, Hst).
Qed.

Lemma local_loop_step E i tip tips cands acc w stock :
  match cands with
  | [] => Ok None
  | _ => p ← index cands (i `mod` length cands)%nat; Ok (Some p)
  end = Ok stock ->
  let out := path_join OUT_DIR (video_name (time_at E (clock_reads w)) i) in
  GenerateVideosLocal.main_loop E i (tip :: tips) cands acc w
  = (print E (progress_line tip);;
     GenerateVideosLocal.build_video E tip out None (18, 18, 18) stock;;
     sleep 1;;
     GenerateVideosLocal.main_loop E (S i) tips cands (acc ++ [(tip, out)]))
      (time_now E w).2.
Proof.
  intros Hst out. cbn [GenerateVideosLocal.main_loop].
  erewrite bind_ok by reflexivity.
  by erewrite bind_ok by (apply lift_run, Hst).
Qed.

(** A loop that goes from tip to tip in this way goes on as said. *)
Lemma stepping_loop_progress E loop build :
  (forall i cands acc w, loop i [] cands acc w = (Ok acc, w)) ->
  (forall i tip tips cands acc w stock,
     match cands with
     | [] => Ok None
     | _ => p ← index cands (i `mod` length cands)%nat; Ok (Some p)
     end = Ok stock ->
     let out :=
       path_join OUT_DIR (video_name (time_at E (clock_reads w)) i) in
     loop i (tip :: tips) cands acc w
     = (print E (progress_line tip);;
        build tip out stock;;
        sleep 1;;
        loop (S i) tips cands (acc ++ [(tip, out)])) (time_now E w).2) ->
  loop_progress E loop build.
Proof.
  intros Hnil Hstep i tip tips cands acc w. split; [apply Hnil|].
  destruct (stock_choice_cases cands i) as (stock & Hst & Hstock).
  exists stock. split; [exact Hstock|].
  intros out w1.
  pose proof (Hstep i tip tips cands acc w stock Hst) as Hs.
  cbv zeta in Hs. fold out w1 in Hs. split.
  - intros Hshow. etrans; [exact (f_equal fst Hs)|].
    erewrite bind_raise; [reflexivity|].
    apply print_fail. unfold progress_line.
    by rewrite progress_line_encodable.
  - intros Hshow.
    destruct (build tip out stock (after w1 (EvPrint (progress_line tip))))
      as [[[]|e] w3] eqn:Hb.
    + etrans; [exact Hs|].
      erewrite bind_ok by (by apply print_progress_run).
      erewrite bind_ok by exact Hb. by erewrite bind_ok by reflexivity.
    + etrans; [exact Hs|].
      erewrite bind_ok by (by apply print_progress_run).
      by erewrite bind_raise by exact Hb.
Qed.

Lemma remote_loop_progress E :
  loop_progress E (GenerateVideos.main_loop E)
    (fun tip out stock =>
       GenerateVideos.build_video E tip out None (18, 18, 18) stock).
Proof.
  apply stepping_loop_progress; [done|].
  intros i tip tips cands acc w stock. apply remote_loop_step.
Qed.

Lemma local_loop_progress E :
  loop_progress E (GenerateVideosLocal.main_loop E)
    (fun tip out stock =>
       GenerateVideosLocal.build_video E tip out None (18, 18, 18) stock).
Proof.
  apply stepping_loop_progress; [done|].
  intros i tip tips cands acc w stock. apply local_loop_step.
Qed.

(** C6.  In both scripts the manifest is written once, after the loop over
    all tips, as the last file of the run, and lists the tips in order with
    the videos written for them.  The run gets there exactly when nothing
    raises on the way: it raises at once without a key, when a directory
    cannot be made, and when the tip generator raises; the loop stops at
    the first build that raises, the script raises what the loop raises,
    and nothing is done after that; when every build has returned the loop
    returns, and the script writes the manifest and the last message and
    finishes.  A run that raises has an exit status other than zero and has
    written no manifest (the manifest path keeps what it held), and every
    video written before the failure is still on the disk. *)
Theorem manifest_written_once_at_end `{UnicodeDb} (E : env) :
  (batch_contract E (GenerateVideos.script E)
     (GenerateVideos.generate_tech_tips E 5)
   /\ batch_progress E (GenerateVideos.script E)
        (GenerateVideos.generate_tech_tips E 5)
        (fun tips cands => GenerateVideos.main_loop E 0 tips cands [])
   /\ loop_progress E (GenerateVideos.main_loop E)
        (fun tip out stock =>
           GenerateVideos.build_video E tip out None (18, 18, 18) stock))
  /\ (batch_contract E (GenerateVideosLocal.script E)
        (GenerateVideosLocal.generate_tech_tips E 5)
      /\ batch_progress E (GenerateVideosLocal.script E)
           (GenerateVideosLocal.generate_tech_tips E 5)
           (fun tips cands => GenerateVideosLocal.main_loop E 0 tips cands [])
      /\ loop_progress E (GenerateVideosLocal.main_loop E)
           (fun tip out stock =>
              GenerateVideosLocal.build_video E tip out None (18, 18, 18)
                stock)).
Proof.
  split; (split; [|split]).
  - apply (script_over_contract E _
             (fun tips stock => GenerateVideos.main_loop E 0 tips stock [])).
    + intros tips stock. apply remote_main_loop_always.
    + intros tips stock w res w'. apply remote_main_loop_ok.
  - apply (script_over_progress E _
             (fun tips stock => GenerateVideos.main_loop E 0 tips stock [])).
  - apply remote_loop_progress.
  - apply (script_over_contract E _
             (fun tips stock =>
                GenerateVideosLocal.main_loop E 0 tips stock [])).
    + intros tips stock. apply local_main_loop_always.
    + intros tips stock w res w'. apply local_main_loop_ok.
  - apply (script_over_progress E _
             (fun tips stock =>
                GenerateVideosLocal.main_loop E 0 tips stock [])).
  - apply local_loop_progress.
Qed.

Lemma manifest_written_once_at_end_witness :
  (@GenerateVideosLocal.script ascii_only_db (env_replying five_tips)
     (world_with_stock FOther)).1 = Ok tt
  /\ (@GenerateVideos.script ascii_only_db env_without_key empty_world).1
     = Raise SystemExit
  /\ (@GenerateVideos.script ascii_only_db env_no_completion
        empty_world).1
     = Raise ServiceError
  /\ (@GenerateVideosLocal.script ascii_only_db env_failing_third
        empty_world).1
     = Raise ServiceError.
Proof.
  destruct (@manifest_written_once_at_end ascii_only_db
              (env_replying five_tips)) as [_ (_ & Hlocal & _)].
  destruct (@manifest_written_once_at_end ascii_only_db env_without_key)
    as [(_ & Hnokey & _) _].
  destruct (@manifest_written_once_at_end ascii_only_db env_no_completion)
    as [(_ & Hnoreply & _) _].
  destruct (@manifest_written_once_at_end ascii_only_db env_failing_third)
    as [_ (_ & Hthird & _)].
  split; [|split; [|split]].
  - destruct (Hlocal (world_with_stock FOther)) as (_ & _ & Hgo).
    destruct (Hgo eq_refl eq_refl eq_refl) as [_ Hloop].
    specialize (Hloop five_tips_read ["assets/a.mp4"]
                  ltac:(by vm_compute) ltac:(by vm_compute)).
    destruct (GenerateVideosLocal.main_loop (env_replying five_tips) 0
                five_tips_read ["assets/a.mp4"] []
                (world_with_stock FOther)) as [[res|e] w3] eqn:Hl.
    + by rewrite Hloop.
    + revert Hl. vm_compute. discriminate.
  - destruct (Hnokey empty_world) as (Hexit & _). by apply Hexit.
  - destruct (Hnoreply empty_world) as (_ & _ & Hgo).
    destruct (Hgo eq_refl eq_refl eq_refl) as [Hraise _].
    by apply Hraise.
  - destruct (Hthird empty_world) as (_ & _ & Hgo).
    destruct (Hgo eq_refl eq_refl eq_refl) as [_ Hloop].
    specialize (Hloop five_tips_read [] ltac:(by vm_compute) eq_refl).
    destruct (GenerateVideosLocal.main_loop env_failing_third 0
                five_tips_read [] [] empty_world) as [[res|e] w3] eqn:Hl.
    + revert Hl. vm_compute. discriminate.
    + rewrite Hloop. simpl. revert Hl. vm_compute. by intros [= <- _].
Defined.
